(** * CSV Insights Dashboard: the profiling and filtering pipeline of app.py

    A shallow embedding of [src/app.py].  The pandas frame is a schema (the
    ordered column names with their dtypes) over an ordered list of rows;
    every row carries its index label and one cell per column.  A missing
    cell (NaN, NaT, None) is [None].  Numbers that pandas holds as int64 or
    float64 are the rationals they denote.  Where the script computes with
    floats (the bounds and the comparisons of the range filter, the
    percentages) every operation rounds its exact result to binary64; the
    rounding is an interface with its laws, and the round-to-nearest-even
    of IEEE 754 is given as its instance.  A quotient of two counts is a
    rational, [inf] or NaN as numpy has it; on counts, comparing such a
    quotient with the literals 0.5 and 0.9 gives what the float comparison
    gives.

    The library routines the script calls without fixing their algorithm
    (the element parsers behind [pd.to_numeric] and [pd.to_datetime], the
    sort behind [sort_values], the generator behind [sample]) are interfaces
    (type classes) carrying the contract pandas documents for them.  The
    Streamlit widgets are inputs: what the user picked is a record read by
    the script. *)

From Stdlib Require Import ZArith QArith List String Ascii Bool Lia.
From Stdlib Require Import Permutation Sorted Lqa Qpower.
From stdpp Require Import base option list gmap strings.

Close Scope Q_scope.
Open Scope string_scope.
Open Scope list_scope.
Open Scope nat_scope.

(* ===================================================================== *)
(** ** Exceptions *)
(* ===================================================================== *)

(** The ways a run of the script ends before its last line: an uncaught
    Python exception, [st.stop()], or an early [return] of [main]. *)
Inductive exn :=
  | KeyError (key : string)
  | AttributeError (attr : string)
  | TypeError
  | ValueError
  | ZeroDivisionError
  | ParserError
  | ScriptStopped
  | Returned.

Inductive result (A : Type) :=
  | Ok (a : A)
  | Raise (e : exn).
Arguments Ok {A} a.
Arguments Raise {A} e.

#[global] Instance result_ret : MRet result := fun A a => Ok a.
#[global] Instance result_bind : MBind result := fun A B f m =>
  match m with Ok a => f a | Raise e => Raise e end.
#[global] Instance result_fmap : FMap result := fun A B f m =>
  match m with Ok a => Ok (f a) | Raise e => Raise e end.

(* ===================================================================== *)
(** ** Floating point *)
(* ===================================================================== *)

(** Conversion of a rational to binary64: what [float(x)] returns and what
    every float operation applies to its exact result.  The conversion is
    monotone, compatible with equality of rationals, and leaves integers of
    magnitude up to 2^53 as they are. *)
Class Binary64 := {
  to_float : Q -> Q;
  to_float_mono : forall a b, (a <= b)%Q -> (to_float a <= to_float b)%Q;
  to_float_proper : forall a b, (a == b)%Q -> (to_float a == to_float b)%Q;
  to_float_int : forall z : Z,
    (- 2 ^ 53 <= z <= 2 ^ 53)%Z -> (to_float (inject_Z z) == inject_Z z)%Q
}.

(* ===================================================================== *)
(** ** Frames *)
(* ===================================================================== *)

Module Frame.

Inductive dtype := Int64 | Float64 | Object | Boolean | Datetime64.

Inductive value :=
  | VNum (q : Q)
  | VStr (s : string)
  | VBool (b : bool)
  | VTime (t : Z).

(** A cell is [None] when pandas shows NaN / NaT / None. *)
Definition cell := option value.

Record row := Row { label : nat; cells : list cell }.

Record DataFrame := Df { columns : list (string * dtype); rows : list row }.

(** [len(df)] *)
Definition len (df : DataFrame) : nat := length (rows df).

(** [df.copy()] *)
Definition copy (df : DataFrame) : DataFrame := df.

Definition is_number (t : dtype) : bool :=
  match t with Int64 | Float64 => true | _ => false end.

Definition is_object (t : dtype) : bool :=
  match t with Object => true | _ => false end.

(** [df.select_dtypes(include=...).columns.tolist()] and its [exclude] twin. *)
Definition select_dtypes (keep : dtype -> bool) (df : DataFrame) : list string :=
  map fst (List.filter (fun c => keep (snd c)) (columns df)).

(** Position of a column label in the header. *)
Fixpoint index_of (c : string) (cols : list (string * dtype)) : option nat :=
  match cols with
  | [] => None
  | (n, _) :: rest =>
      if String.eqb n c then Some 0 else S <$> index_of c rest
  end.

Definition at_pos (p : nat) (r : row) : cell := nth p (cells r) None.

(** [df[col]]: the column as a list of cells aligned with the rows. *)
Definition getitem (df : DataFrame) (c : string) : result (list cell) :=
  match index_of c (columns df) with
  | Some p => Ok (map (at_pos p) (rows df))
  | None => Raise (KeyError c)
  end.

(** [df[mask]] with a boolean mask aligned with the rows. *)
Fixpoint select {A} (mask : list bool) (l : list A) : list A :=
  match mask, l with
  | b :: mask', x :: l' => if b then x :: select mask' l' else select mask' l'
  | _, _ => []
  end.

Definition loc (df : DataFrame) (mask : list bool) : DataFrame :=
  Df (columns df) (select mask (rows df)).

(** Series helpers. *)
Definition isnull (c : cell) : bool := match c with None => true | Some _ => false end.
Definition notna (c : cell) : bool := negb (isnull c).

Definition isnull_sum (s : list cell) : nat := length (List.filter isnull s).
Definition notna_sum (s : list cell) : nat := length (List.filter notna s).

Definition dropna (s : list cell) : list cell := List.filter notna s.

Definition value_eqb (a b : value) : bool :=
  match a, b with
  | VNum x, VNum y => Qeq_bool x y
  | VStr x, VStr y => String.eqb x y
  | VBool x, VBool y => Bool.eqb x y
  | VTime x, VTime y => Z.eqb x y
  | _, _ => false
  end.

(** Equality as the pandas hash tables see it: NaN matches NaN. *)
Definition cell_eqb (a b : cell) : bool :=
  match a, b with
  | None, None => true
  | Some x, Some y => value_eqb x y
  | _, _ => false
  end.

(** [Series.unique()]: distinct values in order of first appearance. *)
Fixpoint unique (s : list cell) : list cell :=
  match s with
  | [] => []
  | x :: t => x :: List.filter (fun y => negb (cell_eqb x y)) (unique t)
  end.

(** [Series.isin(values)] for one cell. *)
Definition isin (values : list cell) (c : cell) : bool :=
  existsb (cell_eqb c) values.

(** [Series >= x] and [Series <= x] for one cell and a float [x]: the cell
    is compared as a float (an int64 column is cast), and a missing cell
    compares false on both sides. *)
Definition ge_scalar `{Binary64} (x : Q) (c : cell) : bool :=
  match c with Some (VNum q) => Qle_bool x (to_float q) | _ => false end.
Definition le_scalar `{Binary64} (x : Q) (c : cell) : bool :=
  match c with Some (VNum q) => Qle_bool (to_float q) x | _ => false end.

Definition numbers (s : list cell) : list Q :=
  flat_map (fun c => match c with Some (VNum q) => [q] | _ => [] end) s.

Definition qmin (a b : Q) : Q := if Qle_bool a b then a else b.
Definition qmax (a b : Q) : Q := if Qle_bool a b then b else a.

(** [Series.min()] / [Series.max()]: missing cells are skipped; the result
    is NaN ([None]) when nothing is left. *)
Definition series_min (s : list cell) : option Q :=
  match numbers s with
  | [] => None
  | q :: qs => Some (fold_left qmin qs q)
  end.
Definition series_max (s : list cell) : option Q :=
  match numbers s with
  | [] => None
  | q :: qs => Some (fold_left qmax qs q)
  end.

End Frame.
Export Frame.

(* ===================================================================== *)
(** ** Results of dividing two counts *)
(* ===================================================================== *)

Module Float.

(** The quotient of two counts as numpy computes it: [x / 0] is [inf] for
    [x > 0] and NaN for [x = 0]; no exception is raised. *)
Inductive t := NaN | Inf | Num (q : Q).

Definition div (a b : nat) : t :=
  match b with
  | O => match a with O => NaN | S _ => Inf end
  | S _ => Num (Z.of_nat a # Pos.of_nat b)
  end.

Definition mul (x : t) (k : Q) : t :=
  match x with Num q => Num (q * k)%Q | _ => x end.

(** [x > q]: NaN compares false. *)
Definition gt (x : t) (q : Q) : bool :=
  match x with
  | NaN => false
  | Inf => true
  | Num p => negb (Qle_bool p q)
  end.

(** Round to the nearest integer, halves to the even neighbour ([np.rint]). *)
Definition rint (q : Q) : Z :=
  let n := Qnum q in
  let d := Z.pos (Qden q) in
  let f := (n / d)%Z in
  let r := (n mod d)%Z in
  match (2 * r ?= d)%Z with
  | Lt => f
  | Gt => (f + 1)%Z
  | Eq => if Z.even f then f else (f + 1)%Z
  end.

(** The float nearest to an exact result. *)
Definition round64 `{Binary64} (x : t) : t :=
  match x with
  | Num q => Num (to_float q)
  | _ => x
  end.

(** The format [.1f]: the decimal with one digit nearest to the exact value
    of the float, ties to even. *)
Definition format1 (x : t) : t :=
  match x with
  | Num q => Num (inject_Z (rint (q * (10 # 1))) / (10 # 1))%Q
  | _ => x
  end.

(** [Series.round(1)] as numpy computes it: multiply by 10, [rint], divide
    by 10, each a float operation. *)
Definition round1 `{Binary64} (x : t) : t :=
  match x with
  | Num q => Num (to_float (inject_Z (rint (to_float (q * (10 # 1)))) / (10 # 1)))%Q
  | _ => x
  end.

End Float.

(* ===================================================================== *)
(** ** Section "HELPER FUNCTIONS" of app.py *)
(* ===================================================================== *)

(** [get_column_types] *)
Definition get_column_types (df : DataFrame) : list string * list string :=
  let numeric_cols := select_dtypes is_number df in
  let categorical_cols := select_dtypes (fun t => negb (is_number t)) df in
  (numeric_cols, categorical_cols).

(** *** calculate_missing_values *)

(** [DataFrame.sort_values(by, ascending)] on one key column.  The script
    leaves [kind] at its default, for which pandas promises an ordered
    permutation of the rows and nothing about rows with equal keys. *)
Class SortValues := {
  sort_values : forall {A : Type}, (A -> nat) -> bool -> list A -> list A;
  sort_values_perm : forall A (by_ : A -> nat) (asc : bool) (l : list A),
    Permutation (sort_values by_ asc l) l;
  sort_values_sorted : forall A (by_ : A -> nat) (asc : bool) (l : list A),
    Sorted (fun a b => if asc then by_ a <= by_ b else by_ b <= by_ a)
           (sort_values by_ asc l)
}.

Record summary_row := Summary {
  column : string;
  missing_count : nat;
  missing_pct : Float.t
}.

(** [df.isnull().sum()]: one count per column, in header order. *)
Definition isnull_sums (df : DataFrame) : list (string * nat) :=
  imap (fun p c => (fst c, isnull_sum (map (at_pos p) (rows df)))) (columns df).

Definition missing_percent `{Binary64} (count n : nat) : Float.t :=
  Float.round1
    (Float.round64 (Float.mul (Float.round64 (Float.div count n)) (100 # 1))).

(** The frame [summary] before the rows without missing data are dropped. *)
Definition missing_summary `{Binary64} (df : DataFrame) : list summary_row :=
  let missing := isnull_sums df in
  let missing_pct := map (fun m => missing_percent (snd m) (len df)) missing in
  zip_with (fun m p => Summary (fst m) (snd m) p) missing missing_pct.

Definition calculate_missing_values `{Binary64} `{SortValues} (df : DataFrame)
  : list summary_row :=
  let summary := missing_summary df in
  let summary := List.filter (fun r => 0 <? missing_count r) summary in
  sort_values missing_count false summary.

(** *** attempt_type_conversion *)

(** [pd.to_numeric(s, errors='coerce')] and [pd.to_datetime(s,
    errors='coerce')]: a value that does not parse becomes missing.  Each
    result comes with its dtype: int64 or float64 for the numeric one, and
    whatever dtype pandas settles on for the datetime one (datetime64, or
    object when the values do not fit one). *)
Class Coercions := {
  to_numeric : list cell -> dtype * list cell;
  to_datetime : list cell -> dtype * list cell;
  to_numeric_dtype : forall s, is_number (fst (to_numeric s)) = true;
  to_numeric_length : forall s, length (snd (to_numeric s)) = length s;
  to_datetime_length : forall s, length (snd (to_datetime s)) = length s
}.

(** [df[col] = series]: an existing column is replaced in place (cells are
    aligned on the index, a label without a value gets NaN); a new label is
    appended. *)
Definition setitem (df : DataFrame) (c : string) (t : dtype) (vals : list cell)
  : DataFrame :=
  match index_of c (columns df) with
  | Some p =>
      Df (<[p := (c, t)]> (columns df))
         (imap (fun i r => Row (label r) (<[p := nth i vals None]> (cells r)))
               (rows df))
  | None =>
      Df (columns df ++ [(c, t)])
         (imap (fun i r => Row (label r) (cells r ++ [nth i vals None]))
               (rows df))
  end.

Definition numeric_entry (col : string) : string := "'" +:+ col +:+ "' → numeric".
Definition datetime_entry (col : string) : string := "'" +:+ col +:+ "' → datetime".

(** The body of the [for col in ...] loop, with both [continue]s.  The
    literals 0.5 and 0.9 are compared with quotients of counts; on counts
    the float comparison and the exact one agree. *)
Fixpoint convert_columns `{Coercions} (todo : list string)
    (df_converted : DataFrame) (changes : list string)
  : result (DataFrame * list string) :=
  match todo with
  | [] => Ok (df_converted, changes)
  | col :: rest =>
      s ← getitem df_converted col;
      if Float.gt (Float.div (isnull_sum s) (len df_converted)) (1 # 2)
      then convert_columns rest df_converted changes
      else
        let numeric_converted := to_numeric s in
        if Float.gt (Float.div (notna_sum (snd numeric_converted)) (notna_sum s))
                    (9 # 10)
        then
          convert_columns rest
            (setitem df_converted col (fst numeric_converted) (snd numeric_converted))
            (changes ++ [numeric_entry col])
        else
          let datetime_converted := to_datetime s in
          if Float.gt (Float.div (notna_sum (snd datetime_converted)) (notna_sum s))
                      (9 # 10)
          then
            convert_columns rest
              (setitem df_converted col (fst datetime_converted) (snd datetime_converted))
              (changes ++ [datetime_entry col])
          else convert_columns rest df_converted changes
  end.

Definition attempt_type_conversion `{Coercions} (df : DataFrame)
  : result (DataFrame * list string) :=
  let df_converted := copy df in
  convert_columns (select_dtypes is_object df_converted) df_converted [].

(* ===================================================================== *)
(** ** Section "MAIN APPLICATION" of app.py *)
(* ===================================================================== *)

(** *** Inputs: the uploaded file and the widgets *)

(** [uploaded_file] is the string ["sample_data.csv"] or a file object. *)
Inductive upload :=
  | LocalPath (path : string)
  | UploadedFile (name : string) (data : list Byte.byte).

Inductive read_result :=
  | Parsed (df : DataFrame)
  | FileNotFound
  | ParseFailure.

(** [pd.read_csv] *)
Class TableParser := { read_csv : upload -> read_result }.

(** What the user set on the page; each field is the value the widget with
    that key returns. *)
Record Widgets := {
  use_sample : bool;
  uploaded_file : option upload;
  cat_filter_col : string;
  cat_filter_values : list cell;
  num_filter_col : string;
  num_filter_range : Q * Q
}.

(** [st.info] messages of the filter section. *)
Inductive note :=
  | TooManyUnique (col : string) (n : nat)
  | AllValuesAre (col : string) (v : Q).

(** *** Session state *)

Inductive sval :=
  | SFrame (df : DataFrame)
  | SText (s : string)
  | SLines (l : list string).

Abbreviation session_state := (gmap string sval).

(** [load_csv]: any exception is reported and turned into [None]. *)
Definition load_csv `{TableParser} (f : upload) : option DataFrame :=
  match read_csv f with
  | Parsed df => Some df
  | _ => None
  end.

(** Lines 133-151: sample data, an upload, or nothing. *)
Definition choose_source `{TableParser} (w : Widgets) : result upload :=
  if use_sample w then
    let uploaded_file := LocalPath "sample_data.csv" in
    match read_csv uploaded_file with
    | Parsed _ => Ok uploaded_file
    | FileNotFound => Raise Returned
    | ParseFailure => Raise ParserError
    end
  else
    match uploaded_file w with
    | Some f => let df_raw := load_csv f in Ok f
    | None => Raise Returned
    end.

Definition filename_differs (ss : session_state) (current_filename : string) : bool :=
  match ss !! "filename" with
  | Some (SText s) => negb (String.eqb s current_filename)
  | _ => true
  end.

(** Lines 157-189: parse, and cache the frame under the file name. *)
Definition load_data `{TableParser} (ss : session_state) (uploaded_file : upload)
  : result session_state :=
  match load_csv uploaded_file with
  | None => Raise Returned
  | Some df_raw =>
      let current_filename :=
        match uploaded_file with
        | LocalPath s => s
        | UploadedFile name _ => name
        end in
      if negb (bool_decide (is_Some (ss !! "df")))
         || filename_differs ss current_filename
      then
        df ← match uploaded_file with
             | LocalPath _ =>
                 match read_csv uploaded_file with
                 | Parsed df => Ok df
                 | FileNotFound => Raise ScriptStopped
                 | ParseFailure => Raise ParserError
                 end
             | UploadedFile _ _ =>
                 match load_csv uploaded_file with
                 | Some df => Ok df
                 | None => Raise ScriptStopped
                 end
             end;
        Ok (<["filename" := SText current_filename]> (<["df" := SFrame df]> ss))
      else Ok ss
  end.

(** [st.session_state['df']] *)
Definition session_df (ss : session_state) : result DataFrame :=
  match ss !! "df" with
  | Some (SFrame df) => Ok df
  | Some _ => Raise TypeError
  | None => Raise (KeyError "df")
  end.

(** [st.session_state.conversion_changes] (line 209): reading an attribute
    that was never set raises. *)
Definition session_conversion_changes (ss : session_state) : result (list string) :=
  match ss !! "conversion_changes" with
  | Some (SLines l) => Ok l
  | Some _ => Raise TypeError
  | None => Raise (AttributeError "conversion_changes")
  end.

(** *** Section 3: Filter & Explore *)

(** Lines 255-279. *)
Definition filter_by_category (df df_filtered : DataFrame)
    (categorical_cols : list string) (w : Widgets)
  : result (DataFrame * list note) :=
  match categorical_cols with
  | [] => Ok (df_filtered, [])
  | _ :: _ =>
      let filter_cat_col := cat_filter_col w in
      if negb (String.eqb filter_cat_col "None") then
        s ← getitem df filter_cat_col;
        let unique_values := unique (dropna s) in
        if length unique_values <=? 50 then
          let selected_values := cat_filter_values w in
          match selected_values with
          | [] => Ok (df_filtered, [])
          | _ :: _ =>
              s' ← getitem df_filtered filter_cat_col;
              Ok (loc df_filtered (map (isin selected_values) s'), [])
          end
        else Ok (df_filtered, [TooManyUnique filter_cat_col (length unique_values)])
      else Ok (df_filtered, [])
  end.

(** [float(x)] of a column minimum or maximum: NaN stays NaN. *)
Definition float `{Binary64} (x : option Q) : option Q := to_float <$> x.

(** [col_min == col_max] on floats: NaN equals nothing. *)
Definition float_eqb (a b : option Q) : bool :=
  match a, b with
  | Some x, Some y => Qeq_bool x y
  | _, _ => false
  end.

(** Lines 282-309. *)
Definition filter_by_range `{Binary64} (df df_filtered : DataFrame)
    (numeric_cols : list string) (w : Widgets)
  : result (DataFrame * list note) :=
  match numeric_cols with
  | [] => Ok (df_filtered, [])
  | _ :: _ =>
      let filter_num_col := num_filter_col w in
      if negb (String.eqb filter_num_col "None") then
        s ← getitem df filter_num_col;
        let col_min := float (series_min s) in
        let col_max := float (series_max s) in
        if float_eqb col_min col_max then
          Ok (df_filtered,
              match col_min with
              | Some v => [AllValuesAre filter_num_col v]
              | None => []
              end)
        else
          let range_values := num_filter_range w in
          s' ← getitem df_filtered filter_num_col;
          Ok (loc df_filtered
                (zip_with andb (map (ge_scalar (fst range_values)) s')
                               (map (le_scalar (snd range_values)) s')),
              [])
      else Ok (df_filtered, [])
  end.

(** Lines 249-309: both filters, the categorical one first. *)
Definition filter_explore `{Binary64} (df : DataFrame) (w : Widgets)
  : result (DataFrame * list note) :=
  let '(numeric_cols, categorical_cols) := get_column_types df in
  let df_filtered := copy df in
  '(df_filtered, notes1) ← filter_by_category df df_filtered categorical_cols w;
  '(df_filtered, notes2) ← filter_by_range df df_filtered numeric_cols w;
  Ok (df_filtered, notes1 ++ notes2).

(** *** Section 4: the scatter sample *)

(** [numpy.random.RandomState(seed).choice(population, n, replace=False)]:
    [n] distinct positions below [population]. *)
Class Sampler := {
  choice : nat -> nat -> nat -> list nat;
  choice_length : forall seed population n,
    n <= population -> length (choice seed population n) = n;
  choice_NoDup : forall seed population n, NoDup (choice seed population n);
  choice_bound : forall seed population n i,
    In i (choice seed population n) -> i < population
}.

(** [df.sample(n=n, random_state=seed)]; asking for more rows than there
    are raises [ValueError]. *)
Definition sample `{Sampler} (df : DataFrame) (n seed : nat) : result DataFrame :=
  if n <=? len df then
    Ok (Df (columns df) (omap (fun i => rows df !! i) (choice seed (len df) n)))
  else Raise ValueError.

(** Lines 446-451. *)
Definition scatter_sample `{Sampler} (df_plot : DataFrame) : result DataFrame :=
  if 5000 <? len df_plot then sample df_plot 5000 42
  else Ok df_plot.

(** *** The script from the upload to the scatter plot *)

Record page := Page {
  shown_changes : list string;
  missing_summary_shown : list summary_row;
  df_filtered_shown : DataFrame;
  notes_shown : list note;
  df_scatter : option DataFrame
}.

Definition main `{Binary64} `{TableParser} `{SortValues} `{Sampler}
    (ss : session_state) (w : Widgets) : result (session_state * page) :=
  uploaded_file ← choose_source w;
  ss ← load_data ss uploaded_file;
  df ← session_df ss;
  conversion_changes ← session_conversion_changes ss;
  let missing_summary := calculate_missing_values df in
  '(df_filtered, notes) ← filter_explore df w;
  percent_of_original ← (if len df =? 0 then Raise ZeroDivisionError
                         else Ok (Float.round64
                                    (Float.mul
                                       (Float.round64
                                          (Float.div (len df_filtered) (len df)))
                                       (100 # 1))));
  let df_plot := df_filtered in
  let '(numeric_cols_plot, categorical_cols_plot) := get_column_types df_plot in
  df_scatter ← (if length numeric_cols_plot <? 2 then Ok None
                else Some <$> scatter_sample df_plot);
  Ok (ss, Page conversion_changes missing_summary df_filtered notes df_scatter).

(** *** Other parts of the page *)

(** In this part an expression that raises yields [None]. *)

(** Lines 217-222: the column inventory.  The sample is the first non-null
    cell of the column, or the text N/A. *)
Inductive shown_sample :=
  | NotAvailable
  | Shown (c : cell).

Record column_info := ColumnInfo {
  info_column : string;
  info_type : dtype;
  info_non_null : nat;
  info_sample : shown_sample
}.

(** [s.iloc[0]]: IndexError on an empty series. *)
Definition iloc0 (s : list cell) : option cell :=
  match s with
  | [] => None
  | c :: _ => Some c
  end.

(** [df[col].dropna().iloc[0] if df[col].notna().any() else 'N/A'] *)
Definition sample_value (df : DataFrame) (col : string) : option shown_sample :=
  match getitem df col with
  | Ok s => if existsb notna s then Shown <$> iloc0 (dropna s)
            else Some NotAvailable
  | Raise _ => None
  end.

(** [df.notna().sum().values] *)
Definition notna_sums (df : DataFrame) : list nat :=
  imap (fun p _ => notna_sum (map (at_pos p) (rows df))) (columns df).

Definition col_info (df : DataFrame) : option (list column_info) :=
  samples ← mapM (sample_value df) (map fst (columns df));
  Some (zip_with (fun ct nv => ColumnInfo (fst ct) (snd ct) (fst nv) (snd nv))
                 (columns df) (zip (notna_sums df) samples)).

(** Line 312: [len(df_filtered)/len(df)*100] shown with the format [.1f];
    dividing two Python integers raises when the divisor is zero.  The
    quotient and the product are float operations; the format rounds the
    exact value of the float to one decimal, ties to even. *)
Definition filtered_share `{Binary64} (df df_filtered : DataFrame) : result Float.t :=
  if len df =? 0 then Raise ZeroDivisionError
  else Ok (Float.format1
             (Float.round64
                (Float.mul (Float.round64 (Float.div (len df_filtered) (len df)))
                           (100 # 1)))).

(** Lines 385-391: the bars of the category breakdown.  [value_counts]
    drops missing cells, counts every distinct value and sorts by falling
    count; more than 20 bars are cut to the first 20, with a caption. *)
Definition count_of (v : cell) (s : list cell) : nat :=
  length (List.filter (cell_eqb v) s).

Definition value_counts `{SortValues} (s : list cell) : list (cell * nat) :=
  let present := dropna s in
  sort_values snd false (map (fun v => (v, count_of v present)) (unique present)).

Definition category_breakdown `{SortValues} (df_plot : DataFrame) (cat_col : string)
  : result (list (cell * nat) * bool) :=
  s ← getitem df_plot cat_col;
  let value_counts := value_counts s in
  if 20 <? length value_counts then Ok (take 20 value_counts, true)
  else Ok (value_counts, false).

(** Lines 423-428: the default of the Y selectbox.  [l[i]] raises
    IndexError out of range, [l.index(x)] raises ValueError when [x] is not
    in the list. *)
Definition y_default (numeric_cols_plot : list string) (x_col : string)
  : option string :=
  second ← numeric_cols_plot !! 1;
  if negb (String.eqb second x_col) then Some second
  else numeric_cols_plot !! 0.

Fixpoint list_index (x : string) (l : list string) : option nat :=
  match l with
  | [] => None
  | y :: rest => if String.eqb y x then Some 0 else S <$> list_index x rest
  end.

Definition y_default_index (numeric_cols_plot : list string) (x_col : string)
  : option nat :=
  y ← y_default numeric_cols_plot x_col;
  list_index y numeric_cols_plot.

(* ===================================================================== *)
(** ** Vocabulary of the properties *)
(* ===================================================================== *)

(** What a selectbox built from ['None'] + options can return. *)
Definition selectbox_ok (options : list string) (picked : string) : Prop :=
  In picked ("None" :: options).

(** The test of the range filter on one cell. *)
Definition in_range `{Binary64} (range : Q * Q) (c : cell) : bool :=
  ge_scalar (fst range) c && le_scalar (snd range) c.

(** Missing cells of the column at position [p]. *)
Definition nulls_at (df : DataFrame) (p : nat) : nat :=
  isnull_sum (map (at_pos p) (rows df)).

(** The rule of the loop, column by column, on counts. *)
Inductive verdict := Skipped | ToNumeric | ToDatetime | LeftAsText.

Definition infer_column `{Coercions} (s : list cell) : verdict :=
  if length s <? 2 * isnull_sum s then Skipped
  else if 9 * notna_sum s <? 10 * notna_sum (snd (to_numeric s)) then ToNumeric
  else if 9 * notna_sum s <? 10 * notna_sum (snd (to_datetime s)) then ToDatetime
  else LeftAsText.

Definition converted_column `{Coercions} (s : list cell) : dtype * list cell :=
  match infer_column s with
  | ToNumeric => to_numeric s
  | ToDatetime => to_datetime s
  | Skipped | LeftAsText => (Object, s)
  end.

Definition log_entries `{Coercions} (col : string) (s : list cell) : list string :=
  match infer_column s with
  | ToNumeric => [numeric_entry col]
  | ToDatetime => [datetime_entry col]
  | Skipped | LeftAsText => []
  end.

(** The cells of a column of the frame. *)
Definition column_cells (df : DataFrame) (c : string) : list cell :=
  match index_of c (columns df) with
  | Some p => map (at_pos p) (rows df)
  | None => []
  end.

Definition dtype_of (df : DataFrame) (c : string) : option dtype :=
  p ← index_of c (columns df); snd <$> columns df !! p.

(** Every row has one cell per column. *)
Definition rectangular (df : DataFrame) : Prop :=
  Forall (fun r => length (cells r) = length (columns df)) (rows df).

(** One turn of the loop, as the rule has it. *)
Definition apply_verdict `{Coercions} (df : DataFrame) (col : string)
    (s : list cell) : DataFrame :=
  match infer_column s with
  | ToNumeric => setitem df col (fst (to_numeric s)) (snd (to_numeric s))
  | ToDatetime => setitem df col (fst (to_datetime s)) (snd (to_datetime s))
  | Skipped | LeftAsText => df
  end.

(** The test a row has to pass at the categorical step: the membership in
    the selection when the script builds the filter, nothing otherwise. *)
Definition category_test (df : DataFrame) (categorical_cols : list string)
    (w : Widgets) (r : row) : bool :=
  match categorical_cols, index_of (cat_filter_col w) (columns df) with
  | _ :: _, Some p =>
      if negb (String.eqb (cat_filter_col w) "None")
         && (length (unique (dropna (map (at_pos p) (rows df)))) <=? 50)
         && negb (bool_decide (cat_filter_values w = []))
      then isin (cat_filter_values w) (at_pos p r)
      else true
  | _, _ => true
  end.

(** The test a row has to pass at the range step. *)
Definition range_test `{Binary64} (df : DataFrame) (numeric_cols : list string)
    (w : Widgets) (r : row) : bool :=
  match numeric_cols, index_of (num_filter_col w) (columns df) with
  | _ :: _, Some p =>
      if negb (String.eqb (num_filter_col w) "None")
         && negb (float_eqb (float (series_min (map (at_pos p) (rows df))))
                            (float (series_max (map (at_pos p) (rows df)))))
      then in_range (num_filter_range w) (at_pos p r)
      else true
  | _, _ => true
  end.

(** Every non-null cell of the column at [p] is a number. *)
Definition numeric_at (df : DataFrame) (p : nat) : Prop :=
  forall r, In r (rows df) ->
    at_pos p r = None \/ exists q, at_pos p r = Some (VNum q).

Definition sum_counts (bars : list (cell * nat)) : nat :=
  foldr (fun bar acc => snd bar + acc) 0 bars.

(** The name under which the script caches an upload. *)
Definition upload_name (f : upload) : string :=
  match f with
  | LocalPath s => s
  | UploadedFile name _ => name
  end.

(** A value with the number of its occurrences in [l]. *)
Definition counted (l : list cell) (v : cell) : cell * nat := (v, count_of v l).

(* ===================================================================== *)
(** ** Reference implementations of the library interfaces *)
(* ===================================================================== *)

(** Insertion sort along a comparison [before]; the two sorts below differ
    only in where they put a row whose key is already present. *)
Module Insertion.
Section Sort.
Context {A : Type} (before : A -> A -> bool).

Fixpoint insert (x : A) (l : list A) : list A :=
  match l with
  | [] => [x]
  | y :: t => if before x y then x :: y :: t else y :: insert x t
  end.

Definition sort (l : list A) : list A := foldr insert [] l.
End Sort.
End Insertion.

(** Rows with equal keys stay in their original order. *)
Definition stable_before {A} (by_ : A -> nat) (asc : bool) (x y : A) : bool :=
  if asc then by_ x <=? by_ y else by_ y <=? by_ x.

(** Binary64 arithmetic: a nonzero number is scaled to a significand of 53
    bits, rounded to the nearest integer, halves to the even one, and scaled
    back.  The exponent is unbounded: overflow and subnormal numbers, which
    no count or percentage of the page reaches, are left out. *)
Module Binary.
Definition pow2 (e : Z) : Q := ((2 # 1) ^ e)%Q.

(** The position of the leading bit of a positive number. *)
Definition ilog2 (q : Q) : Z :=
  let k := (Z.log2 (Qnum q) - Z.log2 (Z.pos (Qden q)))%Z in
  if Qle_bool (pow2 k) q then k else (k - 1)%Z.

Definition round_pos (q : Q) : Q :=
  let e := (ilog2 q - 52)%Z in
  (inject_Z (Float.rint (q * pow2 (- e))) * pow2 e)%Q.

Definition round (q : Q) : Q :=
  Qred match Qnum q with
       | Z0 => 0%Q
       | Zpos _ => round_pos q
       | Zneg _ => (- round_pos (- q))%Q
       end.
End Binary.

(** Parsers that read unsigned decimal numerals and dates written
    yyyy-mm-dd, cell by cell; the numeric result is always float64. *)
Definition digit_of (a : ascii) : option Z :=
  let n := nat_of_ascii a in
  if (48 <=? n) && (n <=? 57) then Some (Z.of_nat (n - 48)) else None.

Fixpoint parse_digits (s : string) (acc : Z) : option Z :=
  match s with
  | EmptyString => Some acc
  | String a rest => d ← digit_of a; parse_digits rest (10 * acc + d)%Z
  end.

Definition parse_number (s : string) : option Z :=
  match s with
  | EmptyString => None
  | _ => parse_digits s 0
  end.

Definition parse_date (s : string) : option Z :=
  match s with
  | String y1 (String y2 (String y3 (String y4 (String "-"
      (String m1 (String m2 (String "-" (String d1 (String d2 EmptyString))))))))) =>
      parse_digits
        (String y1 (String y2 (String y3 (String y4
          (String m1 (String m2 (String d1 (String d2 EmptyString)))))))) 0
  | _ => None
  end.

Definition numeric_cell (c : cell) : cell :=
  match c with
  | Some (VStr s) => (fun z => VNum (z # 1)) <$> parse_number s
  | Some (VNum q) => Some (VNum q)
  | _ => None
  end.

Definition datetime_cell (c : cell) : cell :=
  match c with
  | Some (VStr s) => VTime <$> parse_date s
  | Some (VTime t) => Some (VTime t)
  | _ => None
  end.

(* ===================================================================== *)
(** ** Example frames *)
(* ===================================================================== *)

Definition text (s : string) : cell := Some (VStr s).
Definition num (z : Z) : cell := Some (VNum (z # 1)).

(** The two columns of the conversion threshold: five numerals, and four
    numerals around an "x". *)
Definition df_fives : DataFrame :=
  Df [("col", Object)]
     [Row 0 [text "1"]; Row 1 [text "2"]; Row 2 [text "3"]; Row 3 [text "4"];
      Row 4 [text "5"]].

Definition df_with_x : DataFrame :=
  Df [("col", Object)]
     [Row 0 [text "1"]; Row 1 [text "2"]; Row 2 [text "x"]; Row 3 [text "4"];
      Row 4 [text "5"]].

(** A text column that is numeric but for one cell in eleven. *)
Definition df_eleven : DataFrame :=
  Df [("qty", Object)]
     (map (fun i => Row i [if i <? 10 then text (String (ascii_of_nat (48 + i)) "")
                           else text "x"])
          (seq 0 11)).

(** A text column with a gap and a constant numeric column. *)
Definition df_city : DataFrame :=
  Df [("city", Object); ("score", Int64)]
     [Row 0 [text "Paris"; num 10]; Row 1 [None; num 10]; Row 2 [text "Rome"; num 10]].


(** A text column and a numeric column, a gap in each. *)
Definition df_marks : DataFrame :=
  Df [("city", Object); ("mark", Float64)]
     [Row 0 [text "Paris"; num 1]; Row 1 [None; num 5];
      Row 2 [text "Rome"; None]; Row 3 [text "Paris"; num 10]].

(** A categorical column with 51 distinct values. *)
Definition df_days : DataFrame :=
  Df [("day", Datetime64)]
     (map (fun i => Row i [Some (VTime (Z.of_nat i))]) (seq 0 51)).

(** 5001 rows. *)
Definition df_large : DataFrame :=
  Df [("x", Int64); ("y", Int64)]
     (map (fun i => Row i [num (Z.of_nat i); num 0]) (seq 0 (S 5000))).

Definition widgets (cat : string) (values : list cell) (numc : string)
    (range : Q * Q) : Widgets :=
  {| use_sample := true; uploaded_file := None;
     cat_filter_col := cat; cat_filter_values := values;
     num_filter_col := numc; num_filter_range := range |}.

(* ===================================================================== *)
(** ** The reference implementations meet their contracts *)
(* ===================================================================== *)

Module InsertionFacts.
Import Insertion.
Section Sort.
Context {A : Type} (before : A -> A -> bool).

Lemma insert_perm x l : Permutation (insert before x l) (x :: l).
Proof.
  induction l as [|y t IH]; simpl; [reflexivity|].
  destruct (before x y); [reflexivity|].
  rewrite IH. apply perm_swap.
Qed.

Lemma sort_perm l : Permutation (sort before l) l.
Proof.
  induction l as [|x t IH]; simpl; [constructor|].
  rewrite insert_perm. by constructor.
Qed.

Variable R : A -> A -> Prop.
Hypothesis before_true : forall x y, before x y = true -> R x y.
Hypothesis before_false : forall x y, before x y = false -> R y x.

Lemma insert_hd x y l : HdRel R y l -> R y x -> HdRel R y (insert before x l).
Proof.
  intros Hhd Hyx. destruct l as [|z t]; simpl; [by constructor|].
  destruct (before x z); constructor; [done|].
  by inversion Hhd.
Qed.

Lemma insert_sorted x l : Sorted R l -> Sorted R (insert before x l).
Proof.
  induction 1 as [|y t Hs IH Hhd]; simpl.
  - repeat constructor.
  - destruct (before x y) eqn:E.
    + constructor; [by constructor|]. constructor. by apply before_true.
    + constructor; [done|]. apply insert_hd; [done|]. by apply before_false.
Qed.

Lemma sort_sorted l : Sorted R (sort before l).
Proof.
  induction l as [|x t IH]; simpl; [constructor|]. by apply insert_sorted.
Qed.
End Sort.
End InsertionFacts.

#[local] Program Instance stable_sort : SortValues := {
  sort_values A by_ asc l := Insertion.sort (stable_before by_ asc) l
}.
Next Obligation. intros. apply InsertionFacts.sort_perm. Qed.
Next Obligation.
  intros A by_ asc l.
  apply InsertionFacts.sort_sorted; unfold stable_before; intros x y;
    destruct asc; intros Hb;
    first [apply Nat.leb_le in Hb | apply Nat.leb_gt in Hb]; lia.
Qed.

#[local] Program Instance decimal_coercions : Coercions := {
  to_numeric s := (Float64, map numeric_cell s);
  to_datetime s := (Datetime64, map datetime_cell s)
}.
Next Obligation. done. Qed.
Next Obligation. intros. simpl. apply length_map. Qed.
Next Obligation. intros. simpl. apply length_map. Qed.

(** A parser under which every source holds the frame [df]. *)
#[local] Instance parser_of (df : DataFrame) : TableParser :=
  {| read_csv _ := Parsed df |}.

(** ** Rounding *)

(** Rounding to the nearest integer moves a number by at most one half. *)
Lemma rint_near (q : Q) :
  (inject_Z (Float.rint q) - (1 # 2) <= q)%Q /\
  (q <= inject_Z (Float.rint q) + (1 # 2))%Q.
Proof.
  destruct q as [n d]. unfold Float.rint. cbn [Qnum Qden].
  pose proof (Z.div_mod n (Z.pos d) ltac:(lia)) as Hdm.
  pose proof (Z.mod_pos_bound n (Z.pos d) ltac:(lia)) as Hr.
  generalize dependent (n / Z.pos d)%Z. generalize dependent (n mod Z.pos d)%Z.
  intros r Hr f Hdm.
  assert (Hgoal : forall z : Z, (2 * (z * Z.pos d - n) <= Z.pos d)%Z ->
            (2 * (n - z * Z.pos d) <= Z.pos d)%Z ->
            (inject_Z z - (1 # 2) <= n # d)%Q /\ (n # d <= inject_Z z + (1 # 2))%Q).
  { intros z H1 H2. unfold Qle, Qminus, Qplus, Qopp, inject_Z.
    cbn [Qnum Qden]. rewrite !Pos2Z.inj_mul. split; lia. }
  destruct (Z.compare_spec (2 * r) (Z.pos d)) as [E|E|E];
    [destruct (Z.even f)| |]; apply Hgoal; nia.
Qed.

(** A number half way between two integers is rounded to the even one. *)
Lemma rint_tie (q : Q) :
  (q == inject_Z (Float.rint q) - (1 # 2))%Q \/
  (q == inject_Z (Float.rint q) + (1 # 2))%Q ->
  Z.even (Float.rint q) = true.
Proof.
  destruct q as [n d]. unfold Float.rint. cbn [Qnum Qden].
  pose proof (Z.div_mod n (Z.pos d) ltac:(lia)) as Hdm.
  pose proof (Z.mod_pos_bound n (Z.pos d) ltac:(lia)) as Hr.
  generalize dependent (n / Z.pos d)%Z. generalize dependent (n mod Z.pos d)%Z.
  intros r Hr f Hdm.
  assert (Hgoal : forall z : Z,
            ((2 * (z * Z.pos d - n) = Z.pos d)%Z \/
             (2 * (n - z * Z.pos d) = Z.pos d)%Z -> Z.even z = true) ->
            (n # d == inject_Z z - (1 # 2))%Q \/ (n # d == inject_Z z + (1 # 2))%Q ->
            Z.even z = true).
  { intros z Hz. unfold Qeq, Qminus, Qplus, Qopp, inject_Z.
    cbn [Qnum Qden]. rewrite !Pos2Z.inj_mul. intros [H|H]; apply Hz; lia. }
  destruct (Z.compare_spec (2 * r) (Z.pos d)) as [E|E|E];
    [destruct (Z.even f) eqn:Ef| |]; apply Hgoal; intros Htie.
  - done.
  - rewrite Z.even_add, Ef. done.
  - exfalso. nia.
  - exfalso. nia.
Qed.

Lemma rint_mono (a b : Q) : (a <= b)%Q -> (Float.rint a <= Float.rint b)%Z.
Proof.
  intros Hab. destruct (rint_near a) as [Ha1 Ha2]. destruct (rint_near b) as [Hb1 Hb2].
  pose proof (rint_tie a) as Hta. pose proof (rint_tie b) as Htb.
  destruct (Z_le_gt_dec (Float.rint a) (Float.rint b)) as [|Hgt]; [done|exfalso].
  assert (Hz : (inject_Z (Float.rint b) + 1 <= inject_Z (Float.rint a))%Q).
  { change 1%Q with (inject_Z 1). rewrite <- inject_Z_plus, <- Zle_Qle. lia. }
  assert (Ea : Z.even (Float.rint a) = true) by (apply Hta; left; lra).
  assert (Eb : Z.even (Float.rint b) = true) by (apply Htb; right; lra).
  assert (Ez : (inject_Z (Float.rint a) == inject_Z (Float.rint b) + 1)%Q) by lra.
  change 1%Q with (inject_Z 1) in Ez. rewrite <- inject_Z_plus in Ez.
  assert (Ez' : Float.rint a = (Float.rint b + 1)%Z).
  { unfold Qeq, inject_Z in Ez. simpl in Ez. lia. }
  rewrite Ez', Z.even_add, Eb in Ea. done.
Qed.

Lemma rint_proper (a b : Q) : (a == b)%Q -> Float.rint a = Float.rint b.
Proof.
  intros Hab. apply Z.le_antisymm; apply rint_mono; rewrite Hab; apply Qle_refl.
Qed.

Lemma rint_of_integer (q : Q) (k : Z) : (q == inject_Z k)%Q -> Float.rint q = k.
Proof.
  intros Hq. rewrite (rint_proper _ _ Hq). unfold Float.rint, inject_Z. simpl.
  rewrite Z.div_1_r, Z.mod_1_r. done.
Qed.

Lemma rint_ge (q : Q) (k : Z) : (inject_Z k <= q)%Q -> (k <= Float.rint q)%Z.
Proof.
  intros H. pose proof (rint_mono _ _ H) as Hm.
  by rewrite (rint_of_integer (inject_Z k) k) in Hm.
Qed.

Lemma rint_le (q : Q) (k : Z) : (q <= inject_Z k)%Q -> (Float.rint q <= k)%Z.
Proof.
  intros H. pose proof (rint_mono _ _ H) as Hm.
  by rewrite (rint_of_integer (inject_Z k) k) in Hm.
Qed.

(** ** Binary64 *)

Section BinaryFacts.
Import Binary.

Lemma pow2_pos e : (0 < pow2 e)%Q.
Proof. by apply Qpower_0_lt. Qed.

Lemma pow2_add a b : (pow2 (a + b) == pow2 a * pow2 b)%Q.
Proof. by apply Qpower_plus. Qed.

Lemma pow2_le a b : (a <= b)%Z -> (pow2 a <= pow2 b)%Q.
Proof. intros H. by apply Qpower_le_compat_l. Qed.

Lemma pow2_lt a b : (a < b)%Z -> (pow2 a < pow2 b)%Q.
Proof. intros H. by apply Qpower_lt_compat_l. Qed.

Lemma pow2_lt_inv a b : (pow2 a < pow2 b)%Q -> (a < b)%Z.
Proof. intros H. by apply (Qpower_lt_compat_l_inv (2 # 1)). Qed.

Lemma pow2_Z e : (0 <= e)%Z -> (pow2 e == inject_Z (2 ^ e))%Q.
Proof. intros H. symmetry. by apply (Zpower_Qpower 2). Qed.

Lemma pow2_cancel e : (pow2 e * pow2 (- e) == 1)%Q.
Proof. rewrite <- pow2_add. by replace (e + - e)%Z with 0%Z by lia. Qed.

Lemma Q_as_quotient (q : Q) : (q * inject_Z (Z.pos (Qden q)) == inject_Z (Qnum q))%Q.
Proof. destruct q as [n d]. unfold Qeq, Qmult, inject_Z. simpl. lia. Qed.

Lemma ilog2_bounds (q : Q) :
  (0 < q)%Q ->
  let k := (Z.log2 (Qnum q) - Z.log2 (Z.pos (Qden q)))%Z in
  (pow2 (k - 1) < q)%Q /\ (q < pow2 (k + 1))%Q.
Proof.
  intros Hq k.
  assert (Hn : (0 < Qnum q)%Z).
  { destruct q as [n d]. unfold Qlt in Hq. simpl in *. lia. }
  pose proof (Z.log2_spec _ Hn) as [Hn1 Hn2].
  pose proof (Z.log2_spec (Z.pos (Qden q)) ltac:(lia)) as [Hd1 Hd2].
  pose proof (Z.log2_nonneg (Qnum q)) as Hln.
  pose proof (Z.log2_nonneg (Z.pos (Qden q))) as Hld.
  set (ln := Z.log2 (Qnum q)) in *. set (ld := Z.log2 (Z.pos (Qden q))) in *.
  pose proof (Q_as_quotient q) as Hquot.
  rewrite Zle_Qle in Hn1, Hd1. rewrite Zlt_Qlt in Hn2, Hd2.
  rewrite <- pow2_Z in Hn1, Hn2, Hd1, Hd2 by lia.
  split.
  - apply (Qmult_lt_r _ _ (pow2 (ld + 1))); [apply pow2_pos|].
    rewrite <- pow2_add. replace (k - 1 + (ld + 1))%Z with ln by lia.
    apply (Qle_lt_trans _ (inject_Z (Qnum q))); [done|].
    rewrite <- Hquot. by apply Qmult_lt_l.
  - apply (Qmult_lt_r _ _ (pow2 ld)); [apply pow2_pos|].
    rewrite <- pow2_add. replace (k + 1 + ld)%Z with (Z.succ ln) by lia.
    apply (Qle_lt_trans _ (inject_Z (Qnum q))); [|done].
    rewrite <- Hquot. apply Qmult_le_l; done.
Qed.

Lemma ilog2_spec (q : Q) :
  (0 < q)%Q -> (pow2 (ilog2 q) <= q)%Q /\ (q < pow2 (ilog2 q + 1))%Q.
Proof.
  intros Hq. destruct (ilog2_bounds q Hq) as [H1 H2]. unfold ilog2.
  set (k := (Z.log2 (Qnum q) - Z.log2 (Z.pos (Qden q)))%Z) in *.
  destruct (Qle_bool (pow2 k) q) eqn:E.
  - apply Qle_bool_iff in E. done.
  - split; [by apply Qlt_le_weak|].
    replace (k - 1 + 1)%Z with k by lia. apply Qnot_le_lt. intros Hle.
    apply Qle_bool_iff in Hle. by rewrite Hle in E.
Qed.

Lemma ilog2_unique (q : Q) (k : Z) :
  (pow2 k <= q)%Q -> (q < pow2 (k + 1))%Q -> ilog2 q = k.
Proof.
  intros H1 H2.
  assert (Hq : (0 < q)%Q) by (eapply Qlt_le_trans; [apply pow2_pos|exact H1]).
  destruct (ilog2_spec q Hq) as [H3 H4].
  assert (ilog2 q < k + 1)%Z by (apply pow2_lt_inv; eapply Qle_lt_trans; done).
  assert (k < ilog2 q + 1)%Z by (apply pow2_lt_inv; eapply Qle_lt_trans; done).
  lia.
Qed.

Lemma ilog2_mono (a b : Q) : (0 < a)%Q -> (a <= b)%Q -> (ilog2 a <= ilog2 b)%Z.
Proof.
  intros Ha Hab.
  assert (Hb : (0 < b)%Q) by (eapply Qlt_le_trans; done).
  destruct (ilog2_spec a Ha) as [H1 _]. destruct (ilog2_spec b Hb) as [_ H2].
  assert (ilog2 a < ilog2 b + 1)%Z; [|lia].
  apply pow2_lt_inv. eapply Qle_lt_trans; [exact H1|].
  eapply Qle_lt_trans; done.
Qed.

Lemma ilog2_proper (a b : Q) : (0 < a)%Q -> (a == b)%Q -> ilog2 a = ilog2 b.
Proof.
  intros Ha Hab. destruct (ilog2_spec a Ha) as [H1 H2].
  symmetry. apply ilog2_unique; by rewrite <- Hab.
Qed.
End BinaryFacts.

Section RoundFacts.
Import Binary.

Lemma scaled_bounds (q : Q) :
  (0 < q)%Q ->
  (inject_Z (2 ^ 52) <= q * pow2 (- (ilog2 q - 52)))%Q /\
  (q * pow2 (- (ilog2 q - 52)) <= inject_Z (2 ^ 53))%Q.
Proof.
  intros Hq. destruct (ilog2_spec q Hq) as [H1 H2].
  rewrite <- !pow2_Z by lia. split.
  - replace 52%Z with (ilog2 q + - (ilog2 q - 52))%Z at 1 by lia.
    rewrite (pow2_add (ilog2 q) (- (ilog2 q - 52))).
    apply Qmult_le_r; [apply pow2_pos|done].
  - replace (pow2 53) with (pow2 (ilog2 q + 1 + - (ilog2 q - 52)))
      by (f_equal; lia).
    rewrite (pow2_add (ilog2 q + 1) (- (ilog2 q - 52))).
    apply Qmult_le_r; [apply pow2_pos|by apply Qlt_le_weak].
Qed.

Lemma round_pos_bounds (q : Q) :
  (0 < q)%Q ->
  (pow2 (ilog2 q) <= round_pos q)%Q /\ (round_pos q <= pow2 (ilog2 q + 1))%Q.
Proof.
  intros Hq. destruct (scaled_bounds q Hq) as [H1 H2]. unfold round_pos.
  apply rint_ge in H1. apply rint_le in H2.
  rewrite Zle_Qle in H1, H2. rewrite <- pow2_Z in H1, H2 by lia.
  set (m := inject_Z (Float.rint (q * pow2 (- (ilog2 q - 52))))) in *.
  split.
  - replace (ilog2 q) with (52 + (ilog2 q - 52))%Z at 1 by lia.
    rewrite (pow2_add 52%Z (ilog2 q - 52)). apply Qmult_le_r; [apply pow2_pos|done].
  - replace (ilog2 q + 1)%Z with (53 + (ilog2 q - 52))%Z by lia.
    rewrite (pow2_add 53%Z (ilog2 q - 52)). apply Qmult_le_r; [apply pow2_pos|done].
Qed.

Lemma round_pos_pos (q : Q) : (0 < q)%Q -> (0 < round_pos q)%Q.
Proof.
  intros Hq. eapply Qlt_le_trans; [apply pow2_pos|].
  by apply round_pos_bounds.
Qed.

Lemma round_pos_mono (a b : Q) :
  (0 < a)%Q -> (a <= b)%Q -> (round_pos a <= round_pos b)%Q.
Proof.
  intros Ha Hab.
  assert (Hb : (0 < b)%Q) by (eapply Qlt_le_trans; done).
  pose proof (ilog2_mono a b Ha Hab) as Hk.
  destruct (Z.eq_dec (ilog2 a) (ilog2 b)) as [E|E].
  - unfold round_pos. rewrite E.
    apply Qmult_le_r; [apply pow2_pos|]. rewrite <- Zle_Qle.
    apply rint_mono. apply Qmult_le_r; [apply pow2_pos|done].
  - destruct (round_pos_bounds a Ha) as [_ H1].
    destruct (round_pos_bounds b Hb) as [H2 _].
    eapply Qle_trans; [exact H1|]. eapply Qle_trans; [|exact H2].
    apply pow2_le. lia.
Qed.

Lemma round_pos_proper (a b : Q) :
  (0 < a)%Q -> (a == b)%Q -> (round_pos a == round_pos b)%Q.
Proof.
  intros Ha Hab. unfold round_pos. rewrite (ilog2_proper a b Ha Hab).
  rewrite (rint_proper (a * pow2 (- (ilog2 b - 52))) (b * pow2 (- (ilog2 b - 52)))).
  - reflexivity.
  - by rewrite Hab.
Qed.

Lemma round_pos_int (z : Z) :
  (0 < z <= 2 ^ 53)%Z -> (round_pos (inject_Z z) == inject_Z z)%Q.
Proof.
  intros Hz.
  assert (Hq : (0 < inject_Z z)%Q) by (rewrite <- (Zlt_Qlt 0); lia).
  destruct (ilog2_spec _ Hq) as [H1 _].
  assert (Hk : (ilog2 (inject_Z z) < 54)%Z).
  { apply pow2_lt_inv. eapply Qle_lt_trans; [exact H1|].
    rewrite (pow2_Z 54%Z) by lia. rewrite <- Zlt_Qlt. lia. }
  unfold round_pos. set (k := ilog2 (inject_Z z)) in *.
  destruct (Z.eq_dec k 53%Z) as [E|E].
  - assert (Hz' : z = (2 ^ 53)%Z).
    { rewrite E, (pow2_Z 53%Z) in H1 by lia. rewrite <- Zle_Qle in H1. lia. }
    rewrite E, Hz'. rewrite (rint_of_integer _ (2 ^ 52)).
    + by vm_compute.
    + by vm_compute.
  - rewrite (rint_of_integer _ (z * 2 ^ (- (k - 52)))).
    + rewrite inject_Z_mult, <- pow2_Z by lia.
      rewrite <- Qmult_assoc, (Qmult_comm (pow2 (- (k - 52)))), pow2_cancel.
      apply Qmult_1_r.
    + rewrite inject_Z_mult, <- pow2_Z by lia. reflexivity.
Qed.

Lemma round_mono (a b : Q) : (a <= b)%Q -> (round a <= round b)%Q.
Proof.
  intros Hab. destruct a as [[|na|na] da], b as [[|nb|nb] db];
    unfold round; cbn [Qnum]; rewrite !Qred_correct;
    try (by exfalso; apply Hab).
  - apply Qle_refl.
  - apply Qlt_le_weak, round_pos_pos. done.
  - by apply round_pos_mono.
  - assert (H : (0 < round_pos (- (Z.neg na # da)))%Q) by (by apply round_pos_pos).
    lra.
  - assert (H : (0 < round_pos (- (Z.neg na # da)))%Q) by (by apply round_pos_pos).
    assert (H' : (0 < round_pos (Z.pos nb # db))%Q) by (by apply round_pos_pos).
    lra.
  - apply Qopp_le_compat. apply round_pos_mono; [done|].
    by apply Qopp_le_compat in Hab.
Qed.

Lemma round_proper (a b : Q) : (a == b)%Q -> (round a == round b)%Q.
Proof.
  intros Hab. destruct a as [[|na|na] da], b as [[|nb|nb] db];
    unfold round; cbn [Qnum]; rewrite !Qred_correct;
    try (by exfalso; unfold Qeq in Hab; simpl in Hab; lia).
  - reflexivity.
  - by apply round_pos_proper.
  - apply Qopp_comp. apply round_pos_proper; [done|]. by rewrite Hab.
Qed.

Lemma round_int (z : Z) :
  (- 2 ^ 53 <= z <= 2 ^ 53)%Z -> (round (inject_Z z) == inject_Z z)%Q.
Proof.
  intros Hz. destruct z as [|p|p]; unfold round; cbn [Qnum inject_Z];
    rewrite Qred_correct.
  - reflexivity.
  - apply (round_pos_int (Z.pos p)). lia.
  - change (- (Z.neg p # 1))%Q with (inject_Z (Z.pos p)).
    rewrite (round_pos_int (Z.pos p)) by lia. reflexivity.
Qed.
End RoundFacts.

(** The floats of the examples below. *)
Definition binary64 : Binary64 :=
  {| to_float := Binary.round;
     to_float_mono := round_mono;
     to_float_proper := round_proper;
     to_float_int := round_int |}.

(** One tenth is not a float; 2^53 + 1 is not one either, and falls on the
    even neighbour. *)
Example binary64_tenth :
  @to_float binary64 (1 # 10) = (3602879701896397 # 36028797018963968)%Q.
Proof. by vm_compute. Qed.

Example binary64_above_2p53 :
  @to_float binary64 (9007199254740993 # 1) = (9007199254740992 # 1)%Q /\
  @to_float binary64 (9007199254740995 # 1) = (9007199254740996 # 1)%Q.
Proof. split; by vm_compute. Qed.

(** The sampler that draws the last [n] positions, whatever the seed. *)
#[local] Program Instance tail_sampler : Sampler := {
  choice seed population n := seq (population - n) (min n population)
}.
Next Obligation. intros. simpl. rewrite length_seq. lia. Qed.
Next Obligation. intros. apply NoDup_seq. Qed.
Next Obligation.
  intros seed population n i Hin. simpl in Hin. apply in_seq in Hin. lia.
Qed.

(* ===================================================================== *)
(** ** Missing values *)
(* ===================================================================== *)

Section MissingValues.
Context `{Binary64} `{SortValues}.

Lemma summary_zip (f : nat -> nat) (n : nat) (cs : list (string * dtype)) :
  zip_with (fun m p => Summary (fst m) (snd m) p)
    (imap (fun p c => (fst c, f p)) cs)
    (map (fun m : string * nat => missing_percent (snd m) n)
         (imap (fun p c => (fst c, f p)) cs)) =
  imap (fun p c => Summary (fst c) (f p) (missing_percent (f p) n)) cs.
Proof.
  revert f. induction cs as [|c cs IH]; intros f; simpl; [done|].
  f_equal. apply (IH (f ∘ S)).
Qed.

Lemma missing_summary_rows df :
  missing_summary df =
  imap (fun p c => Summary (fst c) (nulls_at df p)
                     (missing_percent (nulls_at df p) (len df)))
       (columns df).
Proof. apply (summary_zip (nulls_at df)). Qed.

Lemma nulls_at_empty cols p : nulls_at (Df cols []) p = 0.
Proof. reflexivity. Qed.

Lemma filter_imap_none {A B} (f : nat -> A -> B) (keep : B -> bool) l :
  (forall p x, keep (f p x) = false) -> List.filter keep (imap f l) = [].
Proof.
  revert f. induction l as [|x l IH]; intros f Hf; simpl; [done|].
  rewrite Hf. apply IH. intros p y. apply Hf.
Qed.

Lemma report_perm df :
  Permutation (calculate_missing_values df)
    (List.filter (fun r => 0 <? missing_count r) (missing_summary df)).
Proof. apply sort_values_perm. Qed.

Lemma report_sorted df :
  Sorted (fun a b => missing_count b <= missing_count a)
         (calculate_missing_values df).
Proof. apply (sort_values_sorted _ missing_count false). Qed.

Lemma report_empty_table cols : calculate_missing_values (Df cols []) = [].
Proof.
  apply Permutation_nil. symmetry. etrans; [apply report_perm|].
  rewrite missing_summary_rows, filter_imap_none; [done|].
  intros p x. by rewrite nulls_at_empty.
Qed.
End MissingValues.

(** 23 missing cells in 80 rows are 28.75 percent; the float product is
    just below that, and the report says 28.7. *)
Example missing_percent_23_of_80 :
  @missing_percent binary64 23 80 = Float.Num (@to_float binary64 (287 # 10)).
Proof. by vm_compute. Qed.

(** On a table without rows the percentage is 0/0, not a number. *)
Example missing_percent_no_rows `{Binary64} : missing_percent 0 0 = Float.NaN.
Proof. reflexivity. Qed.

(** X21: the report holds exactly the columns with a missing count above
    zero, each once, with the count of its missing cells and the percentage
    [round(count / rows * 100, 1)] as the float operations give it; it is
    sorted by descending count (the order among equal counts is left to the
    sort); and on a table without rows the report is empty, no error being
    raised. *)
Theorem missing_report_ranked `{Binary64} `{SortValues} (df : DataFrame) :
  let report := calculate_missing_values df in
  Permutation report
    (List.filter (fun r => 0 <? missing_count r)
       (imap (fun p c => Summary (fst c) (nulls_at df p)
                           (missing_percent (nulls_at df p) (len df)))
             (columns df)))
  /\ (forall r, In r report <->
        exists p c, columns df !! p = Some c /\ 0 < nulls_at df p /\
          r = Summary (fst c) (nulls_at df p)
                (Float.round1
                   (Float.round64
                      (Float.mul (Float.round64 (Float.div (nulls_at df p) (len df)))
                                 (100 # 1)))))
  /\ Sorted (fun a b => missing_count b <= missing_count a) report
  /\ calculate_missing_values (Df (columns df) []) = [].
Proof.
  intros report. subst report.
  assert (Hperm := report_perm df). rewrite missing_summary_rows in Hperm.
  split; [exact Hperm|]. split; [|split].
  - intros r. rewrite <- !list_elem_of_In. rewrite Hperm.
    rewrite list_elem_of_In, filter_In, <- list_elem_of_In.
    rewrite elem_of_lookup_imap. split.
    + intros [(p & c & -> & Hc) Hpos]. simpl in Hpos.
      apply Nat.ltb_lt in Hpos. by exists p, c.
    + intros (p & c & Hc & Hpos & ->). split; [by exists p, c|].
      simpl. by apply Nat.ltb_lt.
  - apply report_sorted.
  - apply report_empty_table.
Qed.

(* ===================================================================== *)
(** ** Frames: masks, labels, distinct values *)
(* ===================================================================== *)

Lemma select_map {A} (f : A -> bool) (l : list A) :
  select (map f l) l = List.filter f l.
Proof.
  induction l as [|x l IH]; simpl; [done|]. rewrite IH. by destruct (f x).
Qed.

Lemma select_and {A} (f g : A -> bool) (l : list A) :
  select (zip_with andb (map f l) (map g l)) l =
  List.filter (fun x => f x && g x) l.
Proof.
  induction l as [|x l IH]; simpl; [done|]. rewrite IH.
  by destruct (f x), (g x).
Qed.

Lemma filter_sublist {A} (f : A -> bool) (l : list A) :
  sublist (List.filter f l) l.
Proof.
  induction l as [|x l IH]; simpl; [constructor|].
  destruct (f x); by constructor.
Qed.

Lemma filter_filter {A} (f g : A -> bool) (l : list A) :
  List.filter g (List.filter f l) = List.filter (fun x => f x && g x) l.
Proof.
  induction l as [|x l IH]; simpl; [done|].
  destruct (f x); simpl; [destruct (g x)|]; by rewrite IH.
Qed.

Lemma filter_all {A} (f : A -> bool) (l : list A) :
  (forall x, In x l -> f x = true) -> List.filter f l = l.
Proof.
  induction l as [|x l IH]; intros Hf; simpl; [done|].
  rewrite (Hf x) by (by left). f_equal. apply IH. intros y Hy. apply Hf. by right.
Qed.

Lemma index_of_In c cols :
  In c (map fst cols) -> exists p, index_of c cols = Some p.
Proof.
  induction cols as [|[n t] cols IH]; simpl; [done|].
  intros Hin. destruct (String.eqb n c) eqn:E; [by exists 0|].
  destruct Hin as [->|Hin]; [by rewrite String.eqb_refl in E|].
  destruct (IH Hin) as [p ->]. by exists (S p).
Qed.

Lemma select_dtypes_In keep df c :
  In c (select_dtypes keep df) -> In c (map fst (columns df)).
Proof.
  unfold select_dtypes. rewrite !in_map_iff.
  intros (x & <- & Hx). apply filter_In in Hx as [Hx _]. by exists x.
Qed.

Lemma getitem_Ok df c p :
  index_of c (columns df) = Some p -> getitem df c = Ok (map (at_pos p) (rows df)).
Proof. unfold getitem. by intros ->. Qed.

Lemma getitem_inv df c s :
  getitem df c = Ok s ->
  exists p, index_of c (columns df) = Some p /\ s = map (at_pos p) (rows df).
Proof.
  unfold getitem. destruct (index_of c (columns df)) as [p|]; [|done].
  intros [= <-]. by exists p.
Qed.

(** [cell_eqb] is an equivalence. *)
Lemma value_eqb_refl v : value_eqb v v = true.
Proof.
  destruct v; simpl.
  - apply Qeq_bool_iff. reflexivity.
  - apply String.eqb_refl.
  - by destruct b.
  - apply Z.eqb_refl.
Qed.

Lemma value_eqb_sym a b : value_eqb a b = value_eqb b a.
Proof.
  destruct a, b; simpl; try done.
  - apply eq_true_iff_eq. rewrite !Qeq_bool_iff. split; intros E; by symmetry.
  - apply String.eqb_sym.
  - by destruct b0, b.
  - apply Z.eqb_sym.
Qed.

Lemma value_eqb_trans a b c :
  value_eqb a b = true -> value_eqb b c = true -> value_eqb a c = true.
Proof.
  destruct a, b, c; simpl; try done.
  - rewrite !Qeq_bool_iff. intros E1 E2. by rewrite E1.
  - rewrite !String.eqb_eq. congruence.
  - destruct b0, b, b1; done.
  - rewrite !Z.eqb_eq. congruence.
Qed.

Lemma cell_eqb_refl c : cell_eqb c c = true.
Proof. destruct c; simpl; [apply value_eqb_refl|done]. Qed.

Lemma cell_eqb_sym a b : cell_eqb a b = cell_eqb b a.
Proof. destruct a, b; simpl; try done. apply value_eqb_sym. Qed.

Lemma cell_eqb_trans a b c :
  cell_eqb a b = true -> cell_eqb b c = true -> cell_eqb a c = true.
Proof. destruct a, b, c; simpl; try done. apply value_eqb_trans. Qed.

Lemma unique_In y s : In y (unique s) -> In y s.
Proof.
  induction s as [|x s IH]; simpl; [done|].
  intros [->|Hy]; [by left|]. apply filter_In in Hy as [Hy _]. right. by apply IH.
Qed.

Lemma isin_unique x s : In x s -> isin (unique s) x = true.
Proof.
  unfold isin. induction s as [|y s IH]; simpl; [done|].
  intros Hin. destruct (cell_eqb x y) eqn:Exy; [done|]. simpl.
  destruct Hin as [->|Hin]; [by rewrite cell_eqb_refl in Exy|].
  apply existsb_exists. apply IH, existsb_exists in Hin as (z & Hz & Exz).
  exists z. split; [|done]. apply filter_In. split; [done|].
  apply negb_true_iff. destruct (cell_eqb y z) eqn:Eyz; [|done].
  rewrite cell_eqb_sym in Eyz.
  by rewrite (cell_eqb_trans _ _ _ Exz Eyz) in Exy.
Qed.

Lemma isin_null allowed : ~ In None allowed -> isin allowed None = false.
Proof.
  intros Hn. unfold isin. apply not_true_is_false. intros He.
  apply existsb_exists in He as (y & Hy & E). by destruct y.
Qed.

Lemma dropna_no_null s : ~ In None (dropna s).
Proof. unfold dropna. rewrite filter_In. by intros [_ ?]. Qed.

Lemma unique_values_no_null s : ~ In None (unique (dropna s)).
Proof. intros Hin. by apply unique_In, dropna_no_null in Hin. Qed.

Lemma isin_unique_values s c :
  In c s -> isin (unique (dropna s)) c = notna c.
Proof.
  intros Hin. destruct c as [v|]; simpl.
  - apply isin_unique. unfold dropna. by apply filter_In.
  - apply isin_null, unique_values_no_null.
Qed.

(* ===================================================================== *)
(** ** Filter & Explore *)
(* ===================================================================== *)

(** C10: when the chosen categorical column has more than 50 distinct
    non-null values, the categorical step builds no filter: it hands the view
    on unchanged and only tells the user to use another mechanism. *)
Theorem too_many_categories_no_filter (df df_filtered : DataFrame)
    (categorical_cols : list string) (w : Widgets) (s : list cell) :
  In (cat_filter_col w) categorical_cols ->
  cat_filter_col w <> "None" ->
  getitem df (cat_filter_col w) = Ok s ->
  50 < length (unique (dropna s)) ->
  filter_by_category df df_filtered categorical_cols w =
    Ok (df_filtered,
        [TooManyUnique (cat_filter_col w) (length (unique (dropna s)))]).
Proof.
  intros Hin Hne Hs Hmany. unfold filter_by_category.
  destruct categorical_cols as [|c0 cs]; [done|].
  apply String.eqb_neq in Hne. rewrite Hne. simpl. rewrite Hs. simpl.
  apply Nat.leb_gt in Hmany. by rewrite Hmany.
Qed.

Lemma too_many_categories_no_filter_witness :
  filter_by_category df_days df_days ["day"] (widgets "day" [] "None" (0, 0)%Q) =
    Ok (df_days, [TooManyUnique "day" 51]).
Proof.
  apply (too_many_categories_no_filter df_days df_days ["day"]
           (widgets "day" [] "None" (0, 0)%Q)
           (map (fun i => Some (VTime (Z.of_nat i))) (seq 0 51))).
  - simpl. by left.
  - simpl. discriminate.
  - vm_compute. reflexivity.
  - vm_compute. lia.
Defined.

(** C7: on a numeric column whose minimum equals its maximum the range step
    builds no filter: it returns the view it was given, unchanged, with the
    note that all values are that constant (shown as a float); nothing is
    raised. *)
Theorem constant_column_no_range_filter `{Binary64} (df df_filtered : DataFrame)
    (numeric_cols : list string) (w : Widgets) (s : list cell) (lo hi : Q) :
  In (num_filter_col w) numeric_cols ->
  num_filter_col w <> "None" ->
  getitem df (num_filter_col w) = Ok s ->
  series_min s = Some lo ->
  series_max s = Some hi ->
  (lo == hi)%Q ->
  filter_by_range df df_filtered numeric_cols w =
    Ok (df_filtered, [AllValuesAre (num_filter_col w) (to_float lo)]).
Proof.
  intros Hin Hne Hs Hlo Hhi Heq. unfold filter_by_range.
  destruct numeric_cols as [|c0 cs]; [done|].
  apply String.eqb_neq in Hne. rewrite Hne. simpl. rewrite Hs. simpl.
  rewrite Hlo, Hhi. simpl.
  apply to_float_proper, Qeq_bool_iff in Heq. by rewrite Heq.
Qed.

Lemma constant_column_no_range_filter_witness :
  @filter_by_range binary64 df_city df_city ["score"]
    (widgets "None" [] "score" (0, 100)%Q) =
  Ok (df_city, [AllValuesAre "score" (10 # 1)]).
Proof.
  apply (@constant_column_no_range_filter binary64 df_city df_city ["score"]
           (widgets "None" [] "score" (0, 100)%Q)
           [num 10; num 10; num 10] (10 # 1) (10 # 1)).
  - simpl. by left.
  - simpl. discriminate.
  - vm_compute. reflexivity.
  - vm_compute. reflexivity.
  - vm_compute. reflexivity.
  - reflexivity.
Defined.

(** The two steps, when they do build a filter. *)
Lemma filter_by_category_applied df df_filtered categorical_cols w p :
  categorical_cols <> [] ->
  cat_filter_col w <> "None" ->
  index_of (cat_filter_col w) (columns df) = Some p ->
  columns df_filtered = columns df ->
  length (unique (dropna (map (at_pos p) (rows df)))) <= 50 ->
  cat_filter_values w <> [] ->
  filter_by_category df df_filtered categorical_cols w =
    Ok (Df (columns df_filtered)
           (List.filter (fun r => isin (cat_filter_values w) (at_pos p r))
                        (rows df_filtered)), []).
Proof.
  intros Hcats Hne Hp Hcols Hfew Hsel. unfold filter_by_category.
  destruct categorical_cols as [|c0 cs]; [done|].
  apply String.eqb_neq in Hne. rewrite Hne. simpl.
  rewrite (getitem_Ok _ _ _ Hp). simpl.
  apply Nat.leb_le in Hfew. rewrite Hfew.
  destruct (cat_filter_values w) as [|v vs] eqn:E; [done|].
  rewrite <- Hcols in Hp. rewrite (getitem_Ok _ _ _ Hp). simpl.
  unfold loc. by rewrite map_map, (select_map (fun r => isin (v :: vs) (at_pos p r))).
Qed.

Lemma filter_by_category_too_many df df_filtered categorical_cols w p :
  categorical_cols <> [] ->
  cat_filter_col w <> "None" ->
  index_of (cat_filter_col w) (columns df) = Some p ->
  50 < length (unique (dropna (map (at_pos p) (rows df)))) ->
  filter_by_category df df_filtered categorical_cols w =
    Ok (df_filtered,
        [TooManyUnique (cat_filter_col w)
           (length (unique (dropna (map (at_pos p) (rows df)))))]).
Proof.
  intros Hcats Hne Hp Hmany. unfold filter_by_category.
  destruct categorical_cols as [|c0 cs]; [done|].
  apply String.eqb_neq in Hne. rewrite Hne. simpl.
  rewrite (getitem_Ok _ _ _ Hp). simpl.
  apply Nat.leb_gt in Hmany. by rewrite Hmany.
Qed.

Lemma filter_by_range_applied `{Binary64} df df_filtered numeric_cols w p :
  numeric_cols <> [] ->
  num_filter_col w <> "None" ->
  index_of (num_filter_col w) (columns df) = Some p ->
  columns df_filtered = columns df ->
  float_eqb (float (series_min (map (at_pos p) (rows df))))
            (float (series_max (map (at_pos p) (rows df)))) = false ->
  filter_by_range df df_filtered numeric_cols w =
    Ok (Df (columns df_filtered)
           (List.filter (fun r => in_range (num_filter_range w) (at_pos p r))
                        (rows df_filtered)), []).
Proof.
  intros Hnums Hne Hp Hcols Hvar. unfold filter_by_range.
  destruct numeric_cols as [|c0 cs]; [done|].
  apply String.eqb_neq in Hne. rewrite Hne. simpl.
  rewrite (getitem_Ok _ _ _ Hp). simpl. rewrite Hvar.
  rewrite <- Hcols in Hp. rewrite (getitem_Ok _ _ _ Hp). simpl.
  unfold loc. rewrite !map_map.
  by rewrite (select_and (fun r => ge_scalar (num_filter_range w).1 (at_pos p r))
                         (fun r => le_scalar (num_filter_range w).2 (at_pos p r))).
Qed.

Lemma frame_eta df : Df (columns df) (rows df) = df.
Proof. by destruct df. Qed.

Lemma filter_true {A} (l : list A) : List.filter (fun _ => true) l = l.
Proof. by apply filter_all. Qed.

(** Either step returns the rows of its input that pass some test. *)
Lemma filter_by_category_keep df df_filtered categorical_cols w :
  columns df_filtered = columns df ->
  (forall c, In c categorical_cols -> In c (map fst (columns df))) ->
  selectbox_ok categorical_cols (cat_filter_col w) ->
  exists keep notes,
    filter_by_category df df_filtered categorical_cols w =
      Ok (Df (columns df_filtered) (List.filter keep (rows df_filtered)), notes).
Proof.
  intros Hcols Hsub Hpick.
  assert (Hsame : forall notes : list note, exists keep notes',
    Ok (df_filtered, notes) =
    Ok (Df (columns df_filtered) (List.filter keep (rows df_filtered)), notes')).
  { intros notes. exists (fun _ => true), notes.
    by rewrite filter_true, frame_eta. }
  destruct categorical_cols as [|c0 cs] eqn:Ecats; [apply Hsame|].
  destruct (String.eqb (cat_filter_col w) "None") eqn:Enone.
  { simpl. rewrite Enone. apply Hsame. }
  apply String.eqb_neq in Enone.
  destruct Hpick as [Hpick|Hpick]; [done|].
  apply Hsub, index_of_In in Hpick as [p Hp].
  destruct (decide (length (unique (dropna (map (at_pos p) (rows df)))) <= 50))
    as [Hfew|Hmany].
  - destruct (cat_filter_values w) as [|v vs] eqn:Esel.
    + simpl. apply String.eqb_neq in Enone. rewrite Enone. simpl.
      rewrite (getitem_Ok _ _ _ Hp). simpl.
      apply Nat.leb_le in Hfew. rewrite Hfew, Esel. apply Hsame.
    + eexists _, _. apply (filter_by_category_applied _ _ _ _ p); try done.
      by rewrite Esel.
  - rewrite (filter_by_category_too_many df df_filtered (c0 :: cs) w p);
      [apply Hsame|done..|lia].
Qed.

Lemma filter_by_range_keep `{Binary64} df df_filtered numeric_cols w :
  columns df_filtered = columns df ->
  (forall c, In c numeric_cols -> In c (map fst (columns df))) ->
  selectbox_ok numeric_cols (num_filter_col w) ->
  exists keep notes,
    filter_by_range df df_filtered numeric_cols w =
      Ok (Df (columns df_filtered) (List.filter keep (rows df_filtered)), notes).
Proof.
  intros Hcols Hsub Hpick.
  assert (Hsame : forall notes : list note, exists keep notes',
    Ok (df_filtered, notes) =
    Ok (Df (columns df_filtered) (List.filter keep (rows df_filtered)), notes')).
  { intros notes. exists (fun _ => true), notes.
    by rewrite filter_true, frame_eta. }
  destruct numeric_cols as [|c0 cs] eqn:Enums; [apply Hsame|].
  destruct (String.eqb (num_filter_col w) "None") eqn:Enone.
  { simpl. rewrite Enone. apply Hsame. }
  destruct Hpick as [Hpick|Hpick];
    [by rewrite <- Hpick, String.eqb_refl in Enone|].
  apply Hsub, index_of_In in Hpick as [p Hp].
  destruct (float_eqb (float (series_min (map (at_pos p) (rows df))))
                      (float (series_max (map (at_pos p) (rows df))))) eqn:Econst.
  - simpl. rewrite Enone. simpl. rewrite (getitem_Ok _ _ _ Hp). simpl.
    rewrite Econst. apply Hsame.
  - apply String.eqb_neq in Enone. eexists _, _.
    by apply (filter_by_range_applied _ _ _ _ p).
Qed.

Lemma column_types_in_header df :
  (forall c, In c (fst (get_column_types df)) -> In c (map fst (columns df))) /\
  (forall c, In c (snd (get_column_types df)) -> In c (map fst (columns df))).
Proof. split; intros c; apply select_dtypes_In. Qed.

(** C1, as stated, fails: with the column "city" chosen and every value
    deselected, the guard [if selected_values:] skips the filter and all
    three rows of [df_city] stay in the view. *)
Lemma empty_selection_keeps_every_row :
  cat_filter_values (widgets "city" [] "None" (0, 0)%Q) = [] /\
  @filter_explore binary64 df_city (widgets "city" [] "None" (0, 0)%Q)
    = Ok (df_city, []) /\
  rows df_city <> [].
Proof. split; [done|]. split; [by vm_compute|]. discriminate. Qed.

(** C1 (amended): when the selection of the categorical filter is empty, the
    categorical step applies no filter: it returns the view it was given,
    with every row. *)
Theorem empty_selection_is_no_filter (df df_filtered : DataFrame) (w : Widgets) :
  selectbox_ok (snd (get_column_types df)) (cat_filter_col w) ->
  cat_filter_values w = [] ->
  exists notes,
    filter_by_category df df_filtered (snd (get_column_types df)) w =
      Ok (df_filtered, notes).
Proof.
  intros Hpick Hsel. unfold filter_by_category.
  destruct (column_types_in_header df) as [_ Hc].
  destruct (snd (get_column_types df)) as [|c0 cs] eqn:Ecats; [by eexists|].
  destruct (String.eqb (cat_filter_col w) "None") eqn:Enone; [by eexists|].
  destruct Hpick as [Hpick|Hpick];
    [by rewrite <- Hpick, String.eqb_refl in Enone|].
  apply Hc, index_of_In in Hpick as [p Hp].
  simpl. rewrite (getitem_Ok _ _ _ Hp). simpl. rewrite Hsel.
  destruct (_ <=? 50); by eexists.
Qed.

Lemma empty_selection_is_no_filter_witness :
  exists notes,
    filter_by_category df_city df_city (snd (get_column_types df_city))
      (widgets "city" [] "None" (0, 0)%Q) = Ok (df_city, notes).
Proof.
  apply (empty_selection_is_no_filter df_city df_city
           (widgets "city" [] "None" (0, 0)%Q)).
  - right. simpl. by left.
  - reflexivity.
Defined.

Lemma isnull_sum_zero s c : isnull_sum s = 0 -> In c s -> notna c = true.
Proof.
  unfold isnull_sum, notna. intros Hz Hin.
  destruct (isnull c) eqn:E; [|done].
  assert (Hc : In c (List.filter isnull s)) by (by apply filter_In).
  destruct (List.filter isnull s); [done|discriminate].
Qed.

(** C3, as stated, fails: "city" has the distinct values Paris and Rome;
    with both selected the row whose city is missing is dropped, so the view
    is not the unfiltered table. *)
Lemma full_selection_drops_null_row :
  (s ← getitem df_city "city"; Ok (unique (dropna s))) =
    Ok [text "Paris"; text "Rome"] /\
  @filter_explore binary64 df_city
    (widgets "city" [text "Paris"; text "Rome"] "None" (0, 0)%Q) =
    Ok (Df (columns df_city)
           [Row 0 [text "Paris"; num 10]; Row 2 [text "Rome"; num 10]], []) /\
  Df (columns df_city)
     [Row 0 [text "Paris"; num 10]; Row 2 [text "Rome"; num 10]] <> df_city.
Proof. split; [by vm_compute|]. split; [by vm_compute|]. discriminate. Qed.

(** C3 (amended): with the selection equal to the column's distinct non-null
    values, the categorical step returns the rows of the table whose value
    in that column is not Null, in source order (when the column has between
    1 and 50 distinct non-null values); when the column has no Null value
    the view is the unfiltered table.  With no distinct value, more than 50,
    or a column named "None", no filter is applied and the view is the
    unfiltered table as well. *)
Theorem full_selection_keeps_non_null_rows (df : DataFrame) (w : Widgets)
    (s : list cell) :
  In (cat_filter_col w) (snd (get_column_types df)) ->
  getitem df (cat_filter_col w) = Ok s ->
  cat_filter_values w = unique (dropna s) ->
  exists p view notes,
    index_of (cat_filter_col w) (columns df) = Some p /\
    filter_by_category df (copy df) (snd (get_column_types df)) w =
      Ok (view, notes) /\
    columns view = columns df /\
    sublist (rows view) (rows df) /\
    (cat_filter_col w <> "None" -> 0 < length (unique (dropna s)) <= 50 ->
       rows view = List.filter (fun r => notna (at_pos p r)) (rows df)) /\
    (isnull_sum s = 0 -> view = df) /\
    (cat_filter_col w = "None" \/ unique (dropna s) = [] \/
       50 < length (unique (dropna s)) -> view = df).
Proof.
  intros Hin Hs Hsel.
  destruct (getitem_inv _ _ _ Hs) as (p & Hp & ->).
  assert (Hcats : snd (get_column_types df) <> []).
  { intros E. by rewrite E in Hin. }
  exists p.
  assert (Hsame : forall notes : list note,
    filter_by_category df (copy df) (snd (get_column_types df)) w =
      Ok (df, notes) ->
    (cat_filter_col w = "None" \/
     unique (dropna (map (at_pos p) (rows df))) = [] \/
     50 < length (unique (dropna (map (at_pos p) (rows df))))) ->
    exists view notes',
      index_of (cat_filter_col w) (columns df) = Some p /\
      filter_by_category df (copy df) (snd (get_column_types df)) w =
        Ok (view, notes') /\
      columns view = columns df /\
      sublist (rows view) (rows df) /\
      (cat_filter_col w <> "None" ->
         0 < length (unique (dropna (map (at_pos p) (rows df)))) <= 50 ->
         rows view = List.filter (fun r => notna (at_pos p r)) (rows df)) /\
      (isnull_sum (map (at_pos p) (rows df)) = 0 -> view = df) /\
      (cat_filter_col w = "None" \/
       unique (dropna (map (at_pos p) (rows df))) = [] \/
       50 < length (unique (dropna (map (at_pos p) (rows df)))) -> view = df)).
  { intros notes E Hwhy. exists df, notes. repeat split; try done.
    intros Hne Hn. destruct Hwhy as [?|[Hwhy|?]]; [done| |lia].
    rewrite Hwhy in Hn. simpl in Hn. lia. }
  destruct (String.eqb (cat_filter_col w) "None") eqn:Enone.
  { apply (Hsame []); [|left; by apply String.eqb_eq].
    unfold filter_by_category.
    destruct (snd (get_column_types df)); [done|]. by rewrite Enone. }
  apply String.eqb_neq in Enone.
  destruct (decide (length (unique (dropna (map (at_pos p) (rows df)))) <= 50))
    as [Hfew|Hmany].
  2: { eapply Hsame; [|right; right; lia].
       apply (filter_by_category_too_many _ _ _ _ p); try done. lia. }
  destruct (unique (dropna (map (at_pos p) (rows df)))) as [|v vs] eqn:Eu.
  { apply (Hsame []); [|by right; left].
    unfold filter_by_category.
    destruct (snd (get_column_types df)); [done|].
    apply String.eqb_neq in Enone. rewrite Enone. simpl.
    rewrite (getitem_Ok _ _ _ Hp). simpl. by rewrite Eu, Hsel. }
  assert (Hkeep : List.filter
            (fun r => isin (cat_filter_values w) (at_pos p r)) (rows df) =
          List.filter (fun r => notna (at_pos p r)) (rows df)).
  { apply filter_ext_in. intros r Hr. rewrite Hsel, <- Eu.
    apply isin_unique_values. by apply in_map. }
  eexists _, _. split; [done|]. split.
  { apply (filter_by_category_applied _ _ _ _ p); try done.
    - by rewrite Eu.
    - by rewrite Hsel. }
  unfold copy. simpl. rewrite Hkeep.
  split; [done|]. split; [apply filter_sublist|]. split; [done|]. split.
  - intros Hnull. rewrite filter_all; [apply frame_eta|].
    intros r Hr. apply (isnull_sum_zero _ _ Hnull). by apply in_map.
  - intros [?|[?|?]]; [done|done|]. simpl in *. lia.
Qed.

Lemma full_selection_keeps_non_null_rows_witness :
  exists p view notes,
    index_of "city" (columns df_city) = Some p /\
    filter_by_category df_city (copy df_city) (snd (get_column_types df_city))
      (widgets "city" [text "Paris"; text "Rome"] "None" (0, 0)%Q) =
      Ok (view, notes) /\
    columns view = columns df_city /\
    sublist (rows view) (rows df_city) /\
    ("city" <> "None" -> 0 < 2 <= 50 ->
       rows view = List.filter (fun r => notna (at_pos p r)) (rows df_city)) /\
    (1 = 0 -> view = df_city) /\
    ("city" = "None" \/ [text "Paris"; text "Rome"] = [] \/ 50 < 2 ->
       view = df_city).
Proof.
  apply (full_selection_keeps_non_null_rows df_city
           (widgets "city" [text "Paris"; text "Rome"] "None" (0, 0)%Q)
           [text "Paris"; None; text "Rome"]).
  - simpl. by left.
  - vm_compute. reflexivity.
  - vm_compute. reflexivity.
Defined.

Lemma in_range_iff `{Binary64} range c :
  in_range range c = true <->
  exists q, c = Some (VNum q) /\
    (fst range <= to_float q)%Q /\ (to_float q <= snd range)%Q.
Proof.
  unfold in_range, ge_scalar, le_scalar. rewrite andb_true_iff. split.
  - destruct c as [[q| | |]|]; try (by intros [? ?]).
    rewrite !Qle_bool_iff. intros [? ?]. by exists q.
  - intros (q & -> & Hlo & Hhi). by rewrite !Qle_bool_iff.
Qed.




(* ===================================================================== *)
(** ** The scatter sample *)
(* ===================================================================== *)

Lemma rows_at_positions {A} (l : list A) (idx : list nat) :
  (forall i, In i idx -> i < length l) ->
  Forall2 (fun i x => l !! i = Some x) idx (omap (fun i => l !! i) idx).
Proof.
  induction idx as [|i idx IH]; intros Hb; simpl; [constructor|].
  destruct (lookup_lt_is_Some_2 l i (Hb i (or_introl eq_refl))) as [x Hx].
  rewrite Hx. constructor; [done|]. apply IH. intros j Hj. apply Hb. by right.
Qed.

(** C8: a view of at most 5000 rows is plotted as it is; a larger one is
    replaced by [sample(n=5000, random_state=42)], which has exactly 5000
    rows, taken from the view at 5000 distinct positions (no row drawn
    twice); the positions are those the generator yields for the seed 42,
    the size of the view and the count 5000, so the same view always gives
    the same sample. *)
Theorem scatter_sample_bound `{Sampler} (df_plot : DataFrame) :
  (len df_plot <= 5000 -> scatter_sample df_plot = Ok df_plot) /\
  (5000 < len df_plot ->
   exists df_scatter,
     scatter_sample df_plot = Ok df_scatter /\
     sample df_plot 5000 42 = Ok df_scatter /\
     columns df_scatter = columns df_plot /\
     len df_scatter = 5000 /\
     NoDup (choice 42 (len df_plot) 5000) /\
     Forall2 (fun i r => rows df_plot !! i = Some r)
             (choice 42 (len df_plot) 5000) (rows df_scatter) /\
     (forall r, In r (rows df_scatter) -> In r (rows df_plot))).
Proof.
  unfold scatter_sample. split.
  - intros Hle. apply Nat.ltb_ge in Hle. by rewrite Hle.
  - intros Hgt. assert (Hle : 5000 <= len df_plot) by lia.
    apply Nat.ltb_lt in Hgt. rewrite Hgt. unfold sample.
    pose proof Hle as Hleb. apply Nat.leb_le in Hleb. rewrite Hleb.
    assert (Hrows := rows_at_positions (rows df_plot)
                       (choice 42 (len df_plot) 5000)
                       (choice_bound 42 (len df_plot) 5000)).
    eexists. split; [reflexivity|]. split; [reflexivity|]. simpl.
    split; [done|]. split; [|split; [apply choice_NoDup|split; [exact Hrows|]]].
    + unfold len at 1. etrans; [symmetry; apply (Forall2_length _ _ _ Hrows)|].
      by apply choice_length.
    + intros r Hr. apply list_elem_of_In in Hr.
      apply list_elem_of_In.
      apply list_elem_of_omap in Hr as (i & _ & Hi).
      by apply list_elem_of_lookup_2 in Hi.
Qed.

Lemma scatter_sample_bound_witness :
  @scatter_sample tail_sampler df_city = Ok df_city /\
  exists df_scatter,
    @scatter_sample tail_sampler df_large = Ok df_scatter /\
    len df_scatter = 5000.
Proof.
  destruct (@scatter_sample_bound tail_sampler df_city) as [Hsmall _].
  destruct (@scatter_sample_bound tail_sampler df_large) as [_ Hlarge].
  split.
  - apply Hsmall. vm_compute. lia.
  - destruct Hlarge as (df_scatter & E & _ & _ & Hlen & _).
    + vm_compute. lia.
    + by exists df_scatter.
Defined.

(* ===================================================================== *)
(** ** Type inference *)
(* ===================================================================== *)

Lemma gt_half a b : Float.gt (Float.div a b) (1 # 2) = (b <? 2 * a).
Proof.
  destruct b as [|b]; simpl.
  - destruct a; simpl; [done|]. symmetry. apply Nat.ltb_lt. lia.
  - apply eq_true_iff_eq. rewrite negb_true_iff, Nat.ltb_lt.
    rewrite <- not_true_iff_false, Qle_bool_iff. unfold Qle. simpl.
    rewrite <- Pos.of_nat_succ, Zpos_P_of_succ_nat. lia.
Qed.

Lemma gt_nine_tenths a b : Float.gt (Float.div a b) (9 # 10) = (9 * b <? 10 * a).
Proof.
  destruct b as [|b]; simpl.
  - destruct a; simpl; [done|]. symmetry. apply Nat.ltb_lt. lia.
  - apply eq_true_iff_eq. rewrite negb_true_iff, Nat.ltb_lt.
    rewrite <- not_true_iff_false, Qle_bool_iff. unfold Qle. simpl.
    rewrite <- Pos.of_nat_succ, Zpos_P_of_succ_nat. lia.
Qed.

(** *** Column assignment *)

Lemma index_of_names cols1 cols2 c :
  map fst cols1 = map fst cols2 -> index_of c cols1 = index_of c cols2.
Proof.
  revert cols2. induction cols1 as [|[n t] cols1 IH]; intros [|[n' t'] cols2];
    simpl; try done.
  intros [= -> Hrest]. by rewrite (IH _ Hrest).
Qed.

Lemma index_of_lookup c cols p :
  index_of c cols = Some p -> fst <$> cols !! p = Some c.
Proof.
  revert p. induction cols as [|[n t] cols IH]; intros p; simpl; [done|].
  destruct (String.eqb n c) eqn:E.
  - intros [= <-]. simpl. apply String.eqb_eq in E. by subst.
  - destruct (index_of c cols) as [q|]; simpl; [|done].
    intros [= <-]. simpl. by apply IH.
Qed.

Lemma index_of_lt c cols p : index_of c cols = Some p -> p < length cols.
Proof.
  intros Hp. apply index_of_lookup in Hp.
  destruct (cols !! p) eqn:E; [|done]. by apply lookup_lt_Some in E.
Qed.

Lemma index_of_ne c c' cols p p' :
  index_of c cols = Some p -> index_of c' cols = Some p' -> c <> c' -> p <> p'.
Proof.
  intros Hp Hp' Hne ->. apply index_of_lookup in Hp, Hp'. congruence.
Qed.

Lemma nth_insert_ne {A} (l : list A) p p' x d :
  p <> p' -> nth p' (<[p := x]> l) d = nth p' l d.
Proof. intros Hne. by rewrite !nth_lookup, list_lookup_insert_ne. Qed.

Lemma nth_insert_eq {A} (l : list A) p x d :
  p < length l -> nth p (<[p := x]> l) d = x.
Proof. intros Hlt. by rewrite nth_lookup, list_lookup_insert_eq. Qed.

Lemma imap_nth {A B} (v : list B) (l : list A) d :
  length v = length l -> imap (fun i _ => nth i v d) l = v.
Proof.
  revert v. induction l as [|x l IH]; intros [|a v]; simpl; try done.
  intros [= Hlen]. f_equal. by apply IH.
Qed.

Section Setitem.
Context (df : DataFrame) (c : string) (t : dtype) (vals : list cell) (p : nat).
Context (Hp : index_of c (columns df) = Some p).

Lemma setitem_names :
  map fst (columns (setitem df c t vals)) = map fst (columns df).
Proof.
  unfold setitem. rewrite Hp. simpl.
  change (map fst) with (fmap (M:=list) (@fst string dtype)).
  rewrite list_fmap_insert. simpl. apply list_insert_id.
  rewrite list_lookup_fmap. by apply index_of_lookup.
Qed.

Lemma setitem_index_of c' :
  index_of c' (columns (setitem df c t vals)) = index_of c' (columns df).
Proof. apply index_of_names, setitem_names. Qed.

Lemma setitem_len : len (setitem df c t vals) = len df.
Proof. unfold setitem, len. rewrite Hp. simpl. apply length_imap. Qed.

Lemma setitem_rectangular : rectangular df -> rectangular (setitem df c t vals).
Proof.
  unfold rectangular, setitem. rewrite Hp. simpl. rewrite !Forall_forall.
  intros Hrect r Hr.
  apply elem_of_lookup_imap in Hr as (i & r0 & -> & Hr0).
  simpl. rewrite !length_insert.
  apply Hrect. by eapply list_elem_of_lookup_2.
Qed.

Lemma setitem_other c' :
  c <> c' -> getitem (setitem df c t vals) c' = getitem df c'.
Proof.
  intros Hne. unfold getitem. rewrite setitem_index_of.
  destruct (index_of c' (columns df)) as [p'|] eqn:Hp'; [|done].
  f_equal. unfold setitem. rewrite Hp. simpl.
  change (map (at_pos p')) with (fmap (M:=list) (at_pos p')).
  rewrite fmap_imap, <- imap_const. apply imap_ext. intros i r _. simpl.
  unfold at_pos. simpl. apply nth_insert_ne. by eapply index_of_ne.
Qed.

Lemma setitem_same :
  rectangular df -> length vals = len df ->
  getitem (setitem df c t vals) c = Ok vals.
Proof.
  intros Hrect Hlen. unfold getitem. rewrite setitem_index_of, Hp.
  f_equal. unfold setitem. rewrite Hp. simpl.
  change (map (at_pos p)) with (fmap (M:=list) (at_pos p)).
  rewrite fmap_imap. etrans; [|by apply (imap_nth vals (rows df) None)].
  apply imap_ext. intros i r Hr. simpl. unfold at_pos. simpl.
  apply nth_insert_eq. unfold rectangular in Hrect.
  rewrite Forall_forall in Hrect. rewrite (Hrect r).
  - by eapply index_of_lt.
  - by eapply list_elem_of_lookup_2.
Qed.

Lemma setitem_dtype_same : dtype_of (setitem df c t vals) c = Some t.
Proof.
  unfold dtype_of. rewrite setitem_index_of, Hp. simpl.
  unfold setitem. rewrite Hp. simpl.
  rewrite list_lookup_insert_eq; [done|]. by eapply index_of_lt.
Qed.

Lemma setitem_dtype_other c' :
  c <> c' -> dtype_of (setitem df c t vals) c' = dtype_of df c'.
Proof.
  intros Hne. unfold dtype_of. rewrite setitem_index_of.
  destruct (index_of c' (columns df)) as [p'|] eqn:Hp'; [|done]. simpl.
  unfold setitem. rewrite Hp. simpl.
  rewrite list_lookup_insert_ne; [done|]. by eapply index_of_ne.
Qed.

Lemma setitem_column_cells_other c' :
  c <> c' -> column_cells (setitem df c t vals) c' = column_cells df c'.
Proof.
  intros Hne. assert (E := setitem_other c' Hne). unfold getitem in E.
  unfold column_cells. rewrite setitem_index_of in *.
  destruct (index_of c' (columns df)); [|done]. by injection E.
Qed.
End Setitem.

(** *** One turn of the loop *)

Lemma column_cells_length df c p :
  index_of c (columns df) = Some p -> length (column_cells df c) = len df.
Proof. unfold column_cells. intros ->. apply length_map. Qed.

Lemma getitem_column_cells df c p :
  index_of c (columns df) = Some p -> getitem df c = Ok (column_cells df c).
Proof. unfold getitem, column_cells. by intros ->. Qed.

Lemma dtype_of_index df c t :
  dtype_of df c = Some t -> exists p, index_of c (columns df) = Some p.
Proof.
  unfold dtype_of. destruct (index_of c (columns df)) as [p|]; [by exists p|done].
Qed.

Lemma flat_map_ext_In {A B} (f g : A -> list B) (l : list A) :
  (forall x, In x l -> f x = g x) -> flat_map f l = flat_map g l.
Proof.
  induction l as [|x l IH]; intros Hfg; simpl; [done|].
  rewrite (Hfg x) by (by left). f_equal. apply IH. intros y Hy. apply Hfg. by right.
Qed.

Section Loop.
Context `{Coercions}.

Lemma convert_columns_cons col rest df changes p :
  index_of col (columns df) = Some p ->
  convert_columns (col :: rest) df changes =
  convert_columns rest (apply_verdict df col (column_cells df col))
    (changes ++ log_entries col (column_cells df col)).
Proof.
  intros Hp. simpl. rewrite (getitem_column_cells _ _ _ Hp). simpl.
  unfold apply_verdict, log_entries, infer_column.
  rewrite gt_half, !gt_nine_tenths.
  rewrite (column_cells_length _ _ _ Hp).
  destruct (len df <? 2 * isnull_sum (column_cells df col));
    [by rewrite app_nil_r|].
  destruct (9 * notna_sum (column_cells df col) <?
            10 * notna_sum (snd (to_numeric (column_cells df col)))); [done|].
  destruct (9 * notna_sum (column_cells df col) <?
            10 * notna_sum (snd (to_datetime (column_cells df col)))); [done|].
  by rewrite app_nil_r.
Qed.

Section Verdict.
Context (df : DataFrame) (col : string) (p : nat).
Context (Hp : index_of col (columns df) = Some p).
Context (Hobj : dtype_of df col = Some Object).
Context (Hrect : rectangular df).

Let s := column_cells df col.

Lemma apply_verdict_names :
  map fst (columns (apply_verdict df col s)) = map fst (columns df).
Proof.
  unfold apply_verdict. destruct (infer_column s); try done;
    by apply (setitem_names _ _ _ _ p).
Qed.

Lemma apply_verdict_index_of c :
  index_of c (columns (apply_verdict df col s)) = index_of c (columns df).
Proof. apply index_of_names, apply_verdict_names. Qed.

Lemma apply_verdict_len : len (apply_verdict df col s) = len df.
Proof.
  unfold apply_verdict. destruct (infer_column s); try done;
    by apply (setitem_len _ _ _ _ p).
Qed.

Lemma apply_verdict_rectangular : rectangular (apply_verdict df col s).
Proof.
  unfold apply_verdict. destruct (infer_column s); try done;
    by apply (setitem_rectangular _ _ _ _ p).
Qed.

Lemma apply_verdict_other c :
  col <> c ->
  getitem (apply_verdict df col s) c = getitem df c /\
  dtype_of (apply_verdict df col s) c = dtype_of df c /\
  column_cells (apply_verdict df col s) c = column_cells df c.
Proof.
  intros Hne. unfold apply_verdict. destruct (infer_column s); try done;
    (split; [by apply (setitem_other _ _ _ _ p)|];
     split; [by apply (setitem_dtype_other _ _ _ _ p)|];
     by apply (setitem_column_cells_other _ _ _ _ p)).
Qed.

Lemma apply_verdict_same :
  getitem (apply_verdict df col s) col = Ok (snd (converted_column s)) /\
  dtype_of (apply_verdict df col s) col = Some (fst (converted_column s)).
Proof.
  assert (Hlen : length s = len df) by (by apply (column_cells_length _ _ p)).
  unfold apply_verdict, converted_column.
  destruct (infer_column s); simpl.
  - split; [by apply (getitem_column_cells _ _ p)|done].
  - split; [|by apply (setitem_dtype_same _ _ _ _ p)].
    apply (setitem_same _ _ _ _ p); try done. by rewrite to_numeric_length.
  - split; [|by apply (setitem_dtype_same _ _ _ _ p)].
    apply (setitem_same _ _ _ _ p); try done. by rewrite to_datetime_length.
  - split; [by apply (getitem_column_cells _ _ p)|done].
Qed.
End Verdict.

Lemma convert_columns_spec todo : forall df changes,
  rectangular df ->
  NoDup todo ->
  (forall c, In c todo -> dtype_of df c = Some Object) ->
  exists df',
    convert_columns todo df changes =
      Ok (df', changes ++
               flat_map (fun c => log_entries c (column_cells df c)) todo) /\
    map fst (columns df') = map fst (columns df) /\
    len df' = len df /\
    rectangular df' /\
    (forall c, In c todo ->
       getitem df' c = Ok (snd (converted_column (column_cells df c))) /\
       dtype_of df' c = Some (fst (converted_column (column_cells df c)))) /\
    (forall c, ~ In c todo ->
       getitem df' c = getitem df c /\ dtype_of df' c = dtype_of df c).
Proof.
  induction todo as [|col rest IH]; intros df changes Hrect Hnd Hobj.
  { exists df. simpl. rewrite app_nil_r. repeat split; done. }
  apply NoDup_cons in Hnd as [Hfresh Hnd].
  rewrite list_elem_of_In in Hfresh.
  assert (Hcol := Hobj col (or_introl eq_refl)).
  destruct (dtype_of_index _ _ _ Hcol) as [p Hp].
  rewrite (convert_columns_cons _ _ _ _ p Hp).
  set (df1 := apply_verdict df col (column_cells df col)).
  assert (Hother : forall c, In c rest -> col <> c) by (intros c Hc ->; done).
  destruct (IH df1 (changes ++ log_entries col (column_cells df col)))
    as (df' & Hrun & Hnames & Hlen & Hrect' & Hin & Hout).
  { by apply (apply_verdict_rectangular _ _ p). }
  { done. }
  { intros c Hc. unfold df1.
    destruct (apply_verdict_other df col p Hp c (Hother c Hc)) as (_ & -> & _).
    apply Hobj. by right. }
  unfold df1 in *. clear df1.
  exists df'. split.
  { rewrite Hrun. f_equal. f_equal. rewrite <- app_assoc. f_equal. simpl.
    f_equal. apply flat_map_ext_In. intros c Hc.
    by destruct (apply_verdict_other df col p Hp c (Hother c Hc)) as (_ & _ & ->). }
  split; [by rewrite Hnames; apply (apply_verdict_names _ _ p)|].
  split; [by rewrite Hlen; apply (apply_verdict_len _ _ p)|].
  split; [done|]. split.
  - intros c [<-|Hc].
    + destruct (Hout col Hfresh) as [-> ->].
      by apply (apply_verdict_same _ _ p).
    + destruct (Hin c Hc) as [-> ->].
      by destruct (apply_verdict_other df col p Hp c (Hother c Hc)) as (_ & _ & ->).
  - intros c Hc.
    assert (col <> c) by (intros ->; apply Hc; by left).
    assert (~ In c rest) by (intros ?; apply Hc; by right).
    destruct (Hout c) as [-> ->]; [done|].
    by destruct (apply_verdict_other df col p Hp c) as (-> & -> & _).
Qed.
End Loop.

(** *** The whole loop *)

Lemma lookup_by_name cols c t :
  NoDup (map fst cols) -> In (c, t) cols ->
  exists p, index_of c cols = Some p /\ cols !! p = Some (c, t).
Proof.
  induction cols as [|[n t'] cols IH]; simpl; [done|].
  intros Hnd Hin. apply NoDup_cons in Hnd as [Hfresh Hnd].
  destruct Hin as [[= -> ->]|Hin].
  - exists 0. by rewrite String.eqb_refl.
  - destruct (String.eqb n c) eqn:E.
    + apply String.eqb_eq in E as ->. exfalso. apply Hfresh.
      apply list_elem_of_In, in_map_iff. by exists (c, t).
    + destruct (IH Hnd Hin) as (p & -> & Hp). by exists (S p).
Qed.

Lemma select_dtypes_dtype keep df c :
  NoDup (map fst (columns df)) -> In c (select_dtypes keep df) ->
  exists t, dtype_of df c = Some t /\ keep t = true.
Proof.
  intros Hnd Hin. unfold select_dtypes in Hin.
  apply in_map_iff in Hin as ([c' t] & <- & Hin).
  apply filter_In in Hin as [Hin Hkeep]. simpl in *.
  destruct (lookup_by_name _ _ _ Hnd Hin) as (p & Hp & Hcol).
  exists t. split; [|done]. unfold dtype_of. rewrite Hp. simpl. by rewrite Hcol.
Qed.

Lemma select_dtypes_NoDup keep df :
  NoDup (map fst (columns df)) -> NoDup (select_dtypes keep df).
Proof.
  unfold select_dtypes. intros Hnd. eapply sublist_NoDup; [exact Hnd|].
  change (map fst) with (fmap (M:=list) (@fst string dtype)).
  apply fmap_sublist, filter_sublist.
Qed.

Lemma notna_isnull_sum s : notna_sum s + isnull_sum s = length s.
Proof.
  unfold notna_sum, isnull_sum, notna.
  induction s as [|c s IH]; simpl; [done|]. destruct (isnull c); simpl; lia.
Qed.

(** C5, as stated, fails on the text of the log entry: for the column named
    col holding "1" to "5" the loop converts the column and records the name
    between single quotes. *)
Lemma conversion_log_entry_is_quoted :
  @attempt_type_conversion decimal_coercions df_fives =
    Ok (Df [("col", Float64)]
           [Row 0 [num 1]; Row 1 [num 2]; Row 2 [num 3]; Row 3 [num 4];
            Row 4 [num 5]],
        ["'col' → numeric"]) /\
  ["'col' → numeric"] <> ["col → numeric"].
Proof. split; [by vm_compute|discriminate]. Qed.

(** C5 (amended): on a table with distinct column names, the loop treats
    every Text column on its own, in header order: it skips the column when
    its missing cells are more than half of the rows; otherwise it replaces
    the column by its numeric parse exactly when the parsed non-null cells
    are more than 0.9 of the original non-null cells, recording
    ['<column>' → numeric] (the name between single quotes); only when that
    fails it tries the datetime parse under the same rule, recording
    ['<column>' → datetime]; otherwise the column stays Text with no entry.
    Columns of another dtype are left alone.  Five values that all parse
    are converted; five values of which four parse (0.8) stay Text when no
    more than four of them read as dates. *)
Theorem type_inference_thresholds `{Coercions} (df : DataFrame) :
  NoDup (map fst (columns df)) ->
  rectangular df ->
  (exists df_converted,
    attempt_type_conversion df =
      Ok (df_converted,
          flat_map (fun c => log_entries c (column_cells df c))
                   (select_dtypes is_object df)) /\
    map fst (columns df_converted) = map fst (columns df) /\
    len df_converted = len df /\
    (forall c, In c (select_dtypes is_object df) ->
       getitem df_converted c = Ok (snd (converted_column (column_cells df c))) /\
       dtype_of df_converted c = Some (fst (converted_column (column_cells df c)))) /\
    (forall c, ~ In c (select_dtypes is_object df) ->
       getitem df_converted c = getitem df c /\
       dtype_of df_converted c = dtype_of df c))
  /\
  (forall s,
     (infer_column s = Skipped <-> length s < 2 * isnull_sum s) /\
     (infer_column s = ToNumeric ->
        9 * notna_sum s < 10 * notna_sum (snd (to_numeric s)) /\
        is_number (fst (converted_column s)) = true) /\
     (infer_column s = ToDatetime ->
        ~ 9 * notna_sum s < 10 * notna_sum (snd (to_numeric s)) /\
        9 * notna_sum s < 10 * notna_sum (snd (to_datetime s))))
  /\
  (forall s, length s = 5 -> isnull_sum s = 0 ->
     (notna_sum (snd (to_numeric s)) = 5 -> infer_column s = ToNumeric) /\
     (notna_sum (snd (to_numeric s)) = 4 -> notna_sum (snd (to_datetime s)) <= 4 ->
        infer_column s = LeftAsText)).
Proof.
  intros Hnd Hrect. split; [|split].
  - unfold attempt_type_conversion, copy.
    destruct (convert_columns_spec (select_dtypes is_object df) df [] Hrect)
      as (df' & Hrun & Hnames & Hlen & _ & Hin & Hout).
    + by apply select_dtypes_NoDup.
    + intros c Hc.
      destruct (select_dtypes_dtype _ _ _ Hnd Hc) as (t & Ht & Hobj).
      by destruct t.
    + exists df'. by rewrite Hrun.
  - intros s. unfold converted_column, infer_column.
    destruct (length s <? 2 * isnull_sum s) eqn:E1.
    { apply Nat.ltb_lt in E1. split; [done|]. split; discriminate. }
    apply Nat.ltb_ge in E1.
    destruct (9 * notna_sum s <? 10 * notna_sum (snd (to_numeric s))) eqn:E2.
    { apply Nat.ltb_lt in E2. split; [split; [discriminate|lia]|].
      split; [|discriminate]. intros _. split; [done|]. apply to_numeric_dtype. }
    apply Nat.ltb_ge in E2.
    destruct (9 * notna_sum s <? 10 * notna_sum (snd (to_datetime s))) eqn:E3.
    { apply Nat.ltb_lt in E3. split; [split; [discriminate|lia]|].
      split; [discriminate|]. intros _. split; [lia|done]. }
    split; [split; [discriminate|lia]|]. split; discriminate.
  - intros s Hlen Hnull. pose proof (notna_isnull_sum s) as Hsum.
    assert (Hn : notna_sum s = 5) by lia.
    unfold infer_column. rewrite Hlen, Hnull, Hn.
    change (5 <? 2 * 0) with false. cbv iota. split.
    + intros ->. by change (9 * 5 <? 10 * 5) with true.
    + intros -> Hd. change (9 * 5 <? 10 * 4) with false. cbv iota.
      destruct (9 * 5 <? 10 * notna_sum (snd (to_datetime s))) eqn:E; [|done].
      apply Nat.ltb_lt in E. lia.
Qed.

Lemma type_inference_thresholds_witness :
  (exists df_converted,
     @attempt_type_conversion decimal_coercions df_with_x =
       Ok (df_converted, []) /\
     getitem df_converted "col" = getitem df_with_x "col" /\
     dtype_of df_converted "col" = Some Object)
  /\ @infer_column decimal_coercions (column_cells df_fives "col") = ToNumeric
  /\ @infer_column decimal_coercions (column_cells df_with_x "col") = LeftAsText.
Proof.
  destruct (@type_inference_thresholds decimal_coercions df_with_x)
    as [(df' & Hrun & _ & _ & Hin & _) [_ Hfive]].
  { vm_compute. repeat constructor; set_solver. }
  { repeat constructor. }
  split; [|split].
  - exists df'. split; [exact Hrun|]. destruct (Hin "col") as [-> ->].
    + simpl. by left.
    + by vm_compute.
  - by apply (Hfive (column_cells df_fives "col")).
  - by apply (Hfive (column_cells df_with_x "col")); vm_compute; try lia.
Defined.

(* ===================================================================== *)
(** ** Loading: the session state and the change log *)
(* ===================================================================== *)

Lemma load_data_other_keys `{TableParser} ss f ss' k :
  k <> "df" -> k <> "filename" ->
  load_data ss f = Ok ss' -> ss' !! k = ss !! k.
Proof.
  intros Hdf Hname. unfold load_data.
  destruct (load_csv f) as [df_raw|]; [|done].
  destruct (_ || _); [|by intros [= <-]].
  destruct f as [path|name data].
  - destruct (read_csv (LocalPath path)); simpl; try done.
    intros [= <-]. by rewrite !lookup_insert_ne by congruence.
  - simpl. intros [= <-]. by rewrite !lookup_insert_ne by congruence.
Qed.

Lemma load_data_stores_parse `{TableParser} ss f ss' df :
  ss !! "df" = None -> read_csv f = Parsed df ->
  load_data ss f = Ok ss' -> session_df ss' = Ok df.
Proof.
  intros Hfresh Hread. unfold load_data, load_csv. rewrite Hread, Hfresh.
  rewrite bool_decide_eq_false_2 by (by intros [? ?]). simpl.
  destruct f; simpl; rewrite ?Hread; simpl; intros [= <-];
    unfold session_df; by rewrite lookup_insert_ne, lookup_insert_eq.
Qed.

(** No run of [main] on a session that lacks the key reaches its end. *)
Lemma main_needs_conversion_changes `{Binary64}
    `{TableParser} `{SortValues} `{Sampler}
    (ss : session_state) (w : Widgets) :
  ss !! "conversion_changes" = None ->
  forall out, main ss w <> Ok out.
Proof.
  intros Hunset out. unfold main.
  destruct (choose_source w) as [f|]; simpl; [|done].
  destruct (load_data ss f) as [ss'|] eqn:Hload; simpl; [|done].
  destruct (session_df ss') as [df|]; simpl; [|done].
  unfold session_conversion_changes.
  by rewrite (load_data_other_keys ss f ss' "conversion_changes"), Hunset.
Qed.

(** C2 (the code departs from the claim): on a fresh session, with the
    sample file holding the text column [df_eleven], [main] caches the frame
    as parsed, although [attempt_type_conversion] would turn the column into
    numbers and log it; the script never calls it and never sets
    [conversion_changes], so reading the change log raises and nothing
    downstream runs. *)
Theorem main_skips_type_inference :
  let w := widgets "None" [] "None" (0, 0)%Q in
  (exists ss,
     @load_data (parser_of df_eleven) ∅ (LocalPath "sample_data.csv") = Ok ss /\
     session_df ss = Ok df_eleven /\
     session_conversion_changes ss = Raise (AttributeError "conversion_changes"))
  /\
  (exists df_converted,
     @attempt_type_conversion decimal_coercions df_eleven =
       Ok (df_converted, ["'qty' → numeric"]) /\
     df_converted <> df_eleven)
  /\
  @main binary64 (parser_of df_eleven) stable_sort tail_sampler ∅ w =
    Raise (AttributeError "conversion_changes").
Proof.
  intros w.
  assert (Hload : @load_data (parser_of df_eleven) ∅ (LocalPath "sample_data.csv")
                  = Ok (<["filename" := SText "sample_data.csv"]>
                          (<["df" := SFrame df_eleven]> ∅))) by done.
  split; [|split].
  - eexists. split; [exact Hload|]. split.
    + unfold session_df. by rewrite lookup_insert_ne, lookup_insert_eq.
    + unfold session_conversion_changes.
      by rewrite !lookup_insert_ne, lookup_empty.
  - eexists. split; [by vm_compute|]. discriminate.
  - unfold main. change (choose_source w) with (Ok (LocalPath "sample_data.csv")).
    simpl. rewrite Hload. simpl.
    unfold session_df. rewrite lookup_insert_ne, lookup_insert_eq by done. simpl.
    unfold session_conversion_changes.
    by rewrite !lookup_insert_ne, lookup_empty.
Qed.

(* ===================================================================== *)
(** ** Column classification *)
(* ===================================================================== *)

Lemma filter_split_perm {A} (f : A -> bool) (l : list A) :
  Permutation (List.filter f l ++ List.filter (fun x => negb (f x)) l) l.
Proof.
  induction l as [|x l IH]; simpl; [constructor|].
  destruct (f x); simpl.
  - by constructor.
  - rewrite <- Permutation_middle. by constructor.
Qed.

(** X1: [get_column_types] splits the header in two: the two lists together
    hold every column name once, each list keeps the header order, a column
    is numeric exactly when its dtype is int64 or float64, and with distinct
    names no column is in both lists. *)
Theorem column_types_partition (df : DataFrame) :
  let numeric_cols := fst (get_column_types df) in
  let categorical_cols := snd (get_column_types df) in
  Permutation (numeric_cols ++ categorical_cols) (map fst (columns df)) /\
  sublist numeric_cols (map fst (columns df)) /\
  sublist categorical_cols (map fst (columns df)) /\
  (forall c t, In (c, t) (columns df) ->
     if is_number t then In c numeric_cols else In c categorical_cols) /\
  (NoDup (map fst (columns df)) ->
     forall c, In c numeric_cols -> ~ In c categorical_cols).
Proof.
  simpl. unfold select_dtypes. split; [|split; [|split; [|split]]].
  - rewrite <- map_app. apply Permutation_map.
    apply (filter_split_perm (fun c => is_number (snd c))).
  - change (map fst) with (fmap (M:=list) (@fst string dtype)).
    apply fmap_sublist, filter_sublist.
  - change (map fst) with (fmap (M:=list) (@fst string dtype)).
    apply fmap_sublist, filter_sublist.
  - intros c t Hin. destruct (is_number t) eqn:E; apply in_map_iff;
      exists (c, t); (split; [done|]); apply filter_In; simpl; by rewrite E.
  - intros Hnd c Hnum Hcat.
    apply in_map_iff in Hnum as ([c1 t1] & <- & H1).
    apply in_map_iff in Hcat as ([c2 t2] & Hc & H2). simpl in Hc. subst c2.
    apply filter_In in H1 as [H1 E1]. apply filter_In in H2 as [H2 E2].
    simpl in *.
    destruct (lookup_by_name _ _ _ Hnd H1) as (p & Hp & Hl1).
    destruct (lookup_by_name _ _ _ Hnd H2) as (p' & Hp' & Hl2).
    rewrite Hp in Hp'. injection Hp' as <-. rewrite Hl1 in Hl2.
    injection Hl2 as <-. by rewrite E1 in E2.
Qed.

Lemma filter_by_category_columns df df_filtered cats w view notes :
  filter_by_category df df_filtered cats w = Ok (view, notes) ->
  columns view = columns df_filtered.
Proof.
  unfold filter_by_category. destruct cats; [by intros [= <- _]|].
  destruct (negb _); [|by intros [= <- _]].
  destruct (getitem df _); simpl; [|done].
  destruct (_ <=? 50); [|by intros [= <- _]].
  destruct (cat_filter_values w); [by intros [= <- _]|].
  destruct (getitem df_filtered _); simpl; [|done]. by intros [= <- _].
Qed.

Lemma filter_by_range_columns `{Binary64} df df_filtered nums w view notes :
  filter_by_range df df_filtered nums w = Ok (view, notes) ->
  columns view = columns df_filtered.
Proof.
  unfold filter_by_range. destruct nums; [by intros [= <- _]|].
  destruct (negb _); [|by intros [= <- _]].
  destruct (getitem df _); simpl; [|done].
  destruct (float_eqb _ _); [by intros [= <- _]|].
  destruct (getitem df_filtered _); simpl; [|done]. by intros [= <- _].
Qed.

Lemma filter_explore_columns `{Binary64} df w view notes :
  filter_explore df w = Ok (view, notes) -> columns view = columns df.
Proof.
  unfold filter_explore. destruct (get_column_types df) as [nums cats].
  destruct (filter_by_category df (copy df) cats w) as [[v1 n1]|] eqn:E1;
    simpl; [|done].
  destruct (filter_by_range df v1 nums w) as [[v2 n2]|] eqn:E2; simpl; [|done].
  intros [= <- _].
  rewrite (filter_by_range_columns _ _ _ _ _ _ E2).
  by rewrite (filter_by_category_columns _ _ _ _ _ _ E1).
Qed.

(** X2: filtering never changes the classification: the column types the
    script recomputes on the filtered frame (line 329) are those of the
    table, whatever the widgets hold. *)
Theorem column_types_after_filtering `{Binary64} (df : DataFrame) (w : Widgets)
    (view : DataFrame) (notes : list note) :
  filter_explore df w = Ok (view, notes) ->
  get_column_types view = get_column_types df.
Proof.
  intros Hview. unfold get_column_types, select_dtypes.
  by rewrite (filter_explore_columns _ _ _ _ Hview).
Qed.

Lemma column_types_after_filtering_witness :
  get_column_types
    (Df (columns df_marks) [Row 0 [text "Paris"; num 1]; Row 3 [text "Paris"; num 10]])
  = get_column_types df_marks.
Proof.
  apply (@column_types_after_filtering binary64 df_marks
           (widgets "city" [text "Paris"] "None" (0, 0)%Q) _ []).
  by vm_compute.
Defined.

(* ===================================================================== *)
(** ** The missing-value report: emptiness and bounds *)
(* ===================================================================== *)

Lemma filter_nil_iff {A} (f : A -> bool) (l : list A) :
  List.filter f l = [] <-> forall x, In x l -> f x = false.
Proof.
  induction l as [|x l IH]; simpl; [done|]. split.
  - destruct (f x) eqn:E; [done|]. intros Hnil y [<-|Hy]; [done|].
    by apply IH.
  - intros Hall. rewrite (Hall x) by (by left). apply IH.
    intros y Hy. apply Hall. by right.
Qed.


(** X3: the report is empty exactly when no column has a missing cell (the
    case in which the page says that no missing values were found). *)
Theorem no_missing_values_iff `{Binary64} `{SortValues} (df : DataFrame) :
  calculate_missing_values df = [] <->
  forall p, p < length (columns df) -> nulls_at df p = 0.
Proof.
  assert (Hperm := report_perm df). rewrite missing_summary_rows in Hperm.
  split.
  - intros Hnil p Hp. rewrite Hnil in Hperm. apply Permutation_nil in Hperm.
    destruct (lookup_lt_is_Some_2 _ _ Hp) as [c Hc].
    assert (Hin : In (Summary (fst c) (nulls_at df p)
                        (missing_percent (nulls_at df p) (len df)))
                (imap (fun p c => Summary (fst c) (nulls_at df p)
                         (missing_percent (nulls_at df p) (len df)))
                      (columns df))).
    { apply list_elem_of_In.
      by apply (elem_of_lookup_imap_2
                  (fun p c => Summary (fst c) (nulls_at df p)
                     (missing_percent (nulls_at df p) (len df))) _ c p). }
    pose proof (proj1 (filter_nil_iff _ _) Hperm _ Hin) as Hrow.
    simpl in Hrow. apply Nat.ltb_ge in Hrow. lia.
  - intros Hall. apply Permutation_nil. symmetry. etrans; [exact Hperm|].
    replace (List.filter _ _) with (@nil summary_row); [done|]. symmetry.
    apply filter_nil_iff. intros r Hr. apply list_elem_of_In in Hr.
    apply elem_of_lookup_imap in Hr as (p & c & -> & Hc). simpl.
    rewrite Hall; [done|]. by apply lookup_lt_Some in Hc.
Qed.

Lemma no_missing_values_iff_witness :
  @calculate_missing_values binary64 stable_sort df_fives = [] <->
  forall p, p < length (columns df_fives) -> nulls_at df_fives p = 0.
Proof. apply (@no_missing_values_iff binary64 stable_sort df_fives). Defined.

(** Rounding stays within integer bounds. *)
Lemma rint_bounds (q : Q) (k : Z) :
  ((0 <= q)%Q -> (0 <= Float.rint q)%Z) /\
  ((q <= inject_Z k)%Q -> (Float.rint q <= k)%Z).
Proof.
  destruct q as [n d]. unfold Float.rint, Qle, inject_Z. cbn [Qnum Qden].
  pose proof (Z.div_mod n (Z.pos d) ltac:(lia)) as Hdm.
  pose proof (Z.mod_pos_bound n (Z.pos d) ltac:(lia)) as Hr.
  generalize dependent (n / Z.pos d)%Z. generalize dependent (n mod Z.pos d)%Z.
  intros r Hr f Hdm.
  destruct (Z.compare_spec (2 * r) (Z.pos d)) as [E|E|E];
    [destruct (Z.even f)| |]; split; intros; nia.
Qed.

Lemma tenths_bounds (z : Z) :
  ((z # 10) == inject_Z z * (1 # 10))%Q.
Proof. unfold Qeq, Qmult, inject_Z. simpl. lia. Qed.

Lemma count_ratio_bounds (c n : nat) :
  c <= S n ->
  (0 <= Z.of_nat c # Pos.of_nat (S n))%Q /\
  (Z.of_nat c # Pos.of_nat (S n) <= 1)%Q.
Proof.
  intros Hle. unfold Qle. cbn [Qnum Qden].
  rewrite <- Pos.of_nat_succ, Zpos_P_of_succ_nat. lia.
Qed.

(** A float operation keeps its result between two integers that enclose
    the exact result. *)
Lemma to_float_range `{Binary64} (lo hi : Z) (q : Q) :
  (- 2 ^ 53 <= lo <= 2 ^ 53)%Z -> (- 2 ^ 53 <= hi <= 2 ^ 53)%Z ->
  (inject_Z lo <= q)%Q -> (q <= inject_Z hi)%Q ->
  (inject_Z lo <= to_float q)%Q /\ (to_float q <= inject_Z hi)%Q.
Proof.
  intros Hlo Hhi H1 H2. split.
  - rewrite <- (to_float_int lo Hlo). by apply to_float_mono.
  - rewrite <- (to_float_int hi Hhi). by apply to_float_mono.
Qed.



(* ===================================================================== *)
(** ** Type inference: empty tables, a second pass, the index *)
(* ===================================================================== *)

Section InferenceFacts.
Context `{Coercions}.

Lemma infer_column_nil : infer_column [] = LeftAsText.
Proof.
  unfold infer_column. simpl.
  pose proof (to_numeric_length []) as Hn. pose proof (to_datetime_length []) as Hd.
  destruct (snd (to_numeric [])); [|done]. by destruct (snd (to_datetime [])).
Qed.

(** A turn of the loop that judges a column skipped or left as text hands
    the frame on as it is. *)
Lemma convert_columns_no_op todo : forall df changes,
  (forall c, In c todo -> exists p, index_of c (columns df) = Some p) ->
  (forall c, In c todo ->
     infer_column (column_cells df c) = Skipped \/
     infer_column (column_cells df c) = LeftAsText) ->
  convert_columns todo df changes = Ok (df, changes).
Proof.
  induction todo as [|col rest IH]; intros df changes Hidx Hkeep; [done|].
  destruct (Hidx col (or_introl eq_refl)) as [p Hp].
  rewrite (convert_columns_cons _ _ _ _ p Hp).
  unfold apply_verdict, log_entries.
  destruct (Hkeep col (or_introl eq_refl)) as [-> | ->]; rewrite app_nil_r;
    apply IH; intros c Hc; first [apply Hidx | apply Hkeep]; by right.
Qed.

(** X5: on a table without rows nothing is converted and nothing is logged,
    whatever the header: the quotients are 0/0, NaN, and NaN exceeds no
    threshold. *)
Theorem inference_on_empty_table (cols : list (string * dtype)) :
  attempt_type_conversion (Df cols []) = Ok (Df cols [], []).
Proof.
  unfold attempt_type_conversion, copy. apply convert_columns_no_op.
  - intros c Hc. by apply select_dtypes_In, index_of_In in Hc.
  - intros c Hc. right. unfold column_cells. simpl.
    destruct (index_of c cols); apply infer_column_nil.
Qed.



Lemma setitem_labels df c t vals :
  map label (rows (setitem df c t vals)) = map label (rows df).
Proof.
  unfold setitem. change (map label) with (fmap (M:=list) label).
  destruct (index_of c (columns df)); simpl;
    rewrite fmap_imap, <- imap_const; by apply imap_ext.
Qed.

Lemma convert_columns_labels todo : forall df changes df' changes',
  convert_columns todo df changes = Ok (df', changes') ->
  map label (rows df') = map label (rows df).
Proof.
  induction todo as [|col rest IH]; intros df changes df' changes'; simpl.
  { by intros [= <- _]. }
  destruct (getitem df col) as [s|]; simpl; [|done].
  repeat (destruct (Float.gt _ _));
    intros Hrun; apply IH in Hrun; by rewrite ?setitem_labels in Hrun.
Qed.

(** X7: the inference keeps the index: the converted frame has the rows of
    the table under the same labels, in the same order. *)
Theorem inference_keeps_index (df df' : DataFrame) (changes : list string) :
  attempt_type_conversion df = Ok (df', changes) ->
  map label (rows df') = map label (rows df) /\ len df' = len df.
Proof.
  intros Hrun. apply convert_columns_labels in Hrun. split; [exact Hrun|].
  unfold len. by rewrite <- (length_map label), Hrun, length_map.
Qed.
End InferenceFacts.


Lemma inference_keeps_index_witness :
  map label (rows (Df [("col", Float64)]
                      [Row 0 [num 1]; Row 1 [num 2]; Row 2 [num 3]; Row 3 [num 4];
                       Row 4 [num 5]])) = map label (rows df_fives) /\
  len (Df [("col", Float64)]
          [Row 0 [num 1]; Row 1 [num 2]; Row 2 [num 3]; Row 3 [num 4];
           Row 4 [num 5]]) = len df_fives.
Proof.
  apply (@inference_keeps_index decimal_coercions df_fives _ ["'col' → numeric"]).
  by vm_compute.
Defined.

(* ===================================================================== *)
(** ** Loading: the cache *)
(* ===================================================================== *)

Section Cache.
Context `{TableParser}.

Lemma load_data_hit ss f df :
  read_csv f = Parsed df ->
  is_Some (ss !! "df") ->
  ss !! "filename" = Some (SText (upload_name f)) ->
  load_data ss f = Ok ss.
Proof.
  intros Hread Hdf Hname. unfold load_data, load_csv, filename_differs.
  rewrite Hread. rewrite bool_decide_eq_true_2 by done.
  replace (match f with LocalPath s => s | UploadedFile name _ => name end)
    with (upload_name f) by (by destruct f).
  by rewrite Hname, String.eqb_refl.
Qed.

(** X8: a file whose name is the cached one is not loaded again: the
    session, and with it the frame every later step reads, stays as it was,
    whatever the file now parses to. *)
Theorem load_data_keeps_cache (ss : session_state) (f : upload)
    (df cached : DataFrame) :
  read_csv f = Parsed df ->
  ss !! "df" = Some (SFrame cached) ->
  ss !! "filename" = Some (SText (upload_name f)) ->
  load_data ss f = Ok ss /\ session_df ss = Ok cached.
Proof.
  intros Hread Hdf Hname. split.
  - by apply (load_data_hit ss f df).
  - unfold session_df. by rewrite Hdf.
Qed.

(** X9: after a load that succeeds the session names the current file and
    holds a frame slot; every other key is as before; and loading the same
    file again changes nothing. *)
Theorem load_data_settles (ss ss' : session_state) (f : upload) :
  load_data ss f = Ok ss' ->
  ss' !! "filename" = Some (SText (upload_name f)) /\
  is_Some (ss' !! "df") /\
  (forall k, k <> "df" -> k <> "filename" -> ss' !! k = ss !! k) /\
  load_data ss' f = Ok ss'.
Proof.
  intros Hload.
  assert (Hpost : ss' !! "filename" = Some (SText (upload_name f)) /\
                  is_Some (ss' !! "df") /\ exists df, read_csv f = Parsed df).
  { revert Hload. unfold load_data, load_csv, filename_differs.
    destruct (read_csv f) as [df| |] eqn:Hread; try done.
    replace (match f with LocalPath s => s | UploadedFile name _ => name end)
      with (upload_name f) by (by destruct f).
    destruct (bool_decide (is_Some (ss !! "df"))) eqn:Hdf; simpl.
    - apply bool_decide_eq_true_1 in Hdf.
      destruct (ss !! "filename") as [[?|s|?]|] eqn:Hname; simpl.
      1,3,4: destruct f; simpl; rewrite ?Hread; simpl; intros [= <-];
        rewrite lookup_insert_eq, lookup_insert_ne, lookup_insert_eq by done;
        eauto.
      destruct (String.eqb s (upload_name f)) eqn:E; simpl.
      + apply String.eqb_eq in E as ->. intros [= <-]. eauto.
      + destruct f; simpl; rewrite ?Hread; simpl; intros [= <-];
          rewrite lookup_insert_eq, lookup_insert_ne, lookup_insert_eq by done;
          eauto.
    - destruct f; simpl; rewrite ?Hread; simpl; intros [= <-];
        rewrite lookup_insert_eq, lookup_insert_ne, lookup_insert_eq by done;
        eauto. }
  destruct Hpost as (Hname & Hdf & df & Hread).
  split; [done|]. split; [done|]. split.
  - intros k Hk1 Hk2. by apply (load_data_other_keys ss f).
  - by apply (load_data_hit ss' f df).
Qed.
End Cache.

Lemma load_data_keeps_cache_witness :
  @load_data (parser_of df_city)
    (<["filename" := SText "sample_data.csv"]> (<["df" := SFrame df_marks]> ∅))
    (LocalPath "sample_data.csv") =
    Ok (<["filename" := SText "sample_data.csv"]> (<["df" := SFrame df_marks]> ∅)) /\
  session_df
    (<["filename" := SText "sample_data.csv"]> (<["df" := SFrame df_marks]> ∅)) =
    Ok df_marks.
Proof.
  apply (@load_data_keeps_cache (parser_of df_city) _ (LocalPath "sample_data.csv")
           df_city df_marks).
  - reflexivity.
  - by rewrite lookup_insert_ne, lookup_insert_eq.
  - by rewrite lookup_insert_eq.
Defined.

Lemma load_data_settles_witness :
  let ss' := <["filename" := SText "sample_data.csv"]>
               (<["df" := SFrame df_city]> (∅ : session_state)) in
  ss' !! "filename" = Some (SText "sample_data.csv") /\
  is_Some (ss' !! "df") /\
  (forall k, k <> "df" -> k <> "filename" ->
     ss' !! k = (∅ : session_state) !! k) /\
  @load_data (parser_of df_city) ss' (LocalPath "sample_data.csv") = Ok ss'.
Proof.
  apply (@load_data_settles (parser_of df_city) ∅ _ (LocalPath "sample_data.csv")).
  reflexivity.
Defined.

Lemma main_needs_conversion_changes_witness :
  ~ exists out,
      @main binary64 (parser_of df_city) stable_sort tail_sampler ∅
        (widgets "None" [] "None" (0, 0)%Q) = Ok out.
Proof.
  intros [out Hrun].
  apply (@main_needs_conversion_changes binary64 (parser_of df_city) stable_sort
           tail_sampler ∅ (widgets "None" [] "None" (0, 0)%Q)
           (lookup_empty _) out Hrun).
Defined.

(* ===================================================================== *)
(** ** The column inventory *)
(* ===================================================================== *)

Lemma existsb_notna_dropna s :
  existsb notna s = true <-> dropna s <> [].
Proof.
  unfold dropna. induction s as [|c s IH]; simpl; [done|].
  destruct (notna c); simpl; [done|]. exact IH.
Qed.

Lemma notna_sum_dropna s : notna_sum s = length (dropna s).
Proof. reflexivity. Qed.

Lemma sample_value_by_position df c p :
  index_of c (columns df) = Some p ->
  sample_value df c =
    Some (match dropna (map (at_pos p) (rows df)) with
          | [] => NotAvailable
          | x :: _ => Shown x
          end).
Proof.
  intros Hp. unfold sample_value. rewrite (getitem_Ok _ _ _ Hp).
  destruct (existsb notna (map (at_pos p) (rows df))) eqn:E.
  - apply existsb_notna_dropna in E.
    by destruct (dropna (map (at_pos p) (rows df))).
  - destruct (dropna (map (at_pos p) (rows df))) eqn:Ed; [done|].
    assert (Hne : dropna (map (at_pos p) (rows df)) <> []) by (by rewrite Ed).
    apply existsb_notna_dropna in Hne. by rewrite Hne in E.
Qed.

(** X11: the column inventory never raises (the guard on [notna().any()]
    makes [iloc[0]] safe) and has one line per column; with distinct names
    the line at each position carries that column's name and dtype, a
    non-null count that adds up with the missing count to the number of
    rows, and as sample the first non-null cell of the column, N/A being
    shown exactly when the non-null count is zero. *)
Theorem col_info_total (df : DataFrame) :
  exists infos,
    col_info df = Some infos /\
    length infos = length (columns df) /\
    (NoDup (map fst (columns df)) ->
     forall p c t, columns df !! p = Some (c, t) ->
       exists info, infos !! p = Some info /\
         info_column info = c /\ info_type info = t /\
         info_non_null info + nulls_at df p = len df /\
         info_sample info =
           match dropna (map (at_pos p) (rows df)) with
           | [] => NotAvailable
           | x :: _ => Shown x
           end /\
         (info_sample info = NotAvailable <-> info_non_null info = 0)).
Proof.
  unfold col_info.
  assert (Hsome : is_Some (mapM (sample_value df) (map fst (columns df)))).
  { apply mapM_is_Some, Forall_forall. intros c Hc. simpl.
    apply list_elem_of_In, index_of_In in Hc as [p Hp].
    rewrite (sample_value_by_position _ _ _ Hp). eauto. }
  destruct Hsome as [samples Hsamples]. rewrite Hsamples. simpl.
  pose proof (length_mapM _ _ _ Hsamples) as Hlen. rewrite length_map in Hlen.
  eexists. split; [reflexivity|]. split.
  { rewrite length_zip_with, length_zip. unfold notna_sums.
    rewrite length_imap. lia. }
  intros Hnd p c t Hcol.
  apply mapM_Some in Hsamples.
  assert (Hname : map fst (columns df) !! p = Some c).
  { change (map fst) with (fmap (M:=list) (@fst string dtype)).
    by rewrite list_lookup_fmap, Hcol. }
  destruct (Forall2_lookup_l _ _ _ _ _ Hsamples Hname) as (v & Hv & Hsample).
  assert (Hin : In (c, t) (columns df)).
  { apply list_elem_of_In. by eapply list_elem_of_lookup_2. }
  destruct (lookup_by_name _ _ _ Hnd Hin) as (p' & Hp' & Hcol').
  assert (p' = p) as ->.
  { eapply NoDup_lookup; [exact Hnd| |exact Hname].
    change (map fst) with (fmap (M:=list) (@fst string dtype)).
    by rewrite list_lookup_fmap, Hcol'. }
  rewrite (sample_value_by_position _ _ _ Hp') in Hsample.
  injection Hsample as <-.
  eexists. split.
  { rewrite lookup_zip_with, Hcol. simpl. rewrite lookup_zip_with.
    unfold notna_sums. rewrite list_lookup_imap, Hcol. simpl. rewrite Hv.
    reflexivity. }
  simpl. split; [done|]. split; [done|]. split.
  { unfold nulls_at, len. rewrite notna_isnull_sum. apply length_map. }
  split; [done|]. rewrite notna_sum_dropna.
  by destruct (dropna (map (at_pos p) (rows df))).
Qed.

(* ===================================================================== *)
(** ** The range filter at its default *)
(* ===================================================================== *)

Lemma qmin_le a b : (qmin a b <= a)%Q /\ (qmin a b <= b)%Q.
Proof.
  unfold qmin. destruct (Qle_bool a b) eqn:E.
  - apply Qle_bool_iff in E. split; [apply Qle_refl|done].
  - split; [|apply Qle_refl]. apply Qlt_le_weak, Qnot_le_lt.
    intros Hle. apply Qle_bool_iff in Hle. by rewrite Hle in E.
Qed.

Lemma qmax_ge a b : (a <= qmax a b)%Q /\ (b <= qmax a b)%Q.
Proof.
  unfold qmax. destruct (Qle_bool a b) eqn:E.
  - apply Qle_bool_iff in E. split; [done|apply Qle_refl].
  - split; [apply Qle_refl|]. apply Qlt_le_weak, Qnot_le_lt.
    intros Hle. apply Qle_bool_iff in Hle. by rewrite Hle in E.
Qed.

Lemma fold_qmin_le l : forall a x,
  x = a \/ In x l -> (fold_left qmin l a <= x)%Q.
Proof.
  induction l as [|y l IH]; intros a x; simpl.
  - intros [->|[]]. apply Qle_refl.
  - destruct (qmin_le a y) as [Ha Hy].
    intros [->|[->|Hin]].
    + eapply Qle_trans; [apply IH; by left|done].
    + eapply Qle_trans; [apply IH; by left|done].
    + apply IH. by right.
Qed.

Lemma fold_qmax_ge l : forall a x,
  x = a \/ In x l -> (x <= fold_left qmax l a)%Q.
Proof.
  induction l as [|y l IH]; intros a x; simpl.
  - intros [->|[]]. apply Qle_refl.
  - destruct (qmax_ge a y) as [Ha Hy].
    intros [->|[->|Hin]].
    + eapply Qle_trans; [done|apply IH; by left].
    + eapply Qle_trans; [done|apply IH; by left].
    + apply IH. by right.
Qed.

Lemma numbers_In q s : In (Some (VNum q)) s -> In q (numbers s).
Proof.
  unfold numbers. intros Hin. apply in_flat_map.
  exists (Some (VNum q)). split; [done|]. by left.
Qed.

(** The bounds of a column enclose each of its numbers. *)
Lemma series_bounds s lo hi q :
  series_min s = Some lo -> series_max s = Some hi ->
  In (Some (VNum q)) s -> (lo <= q)%Q /\ (q <= hi)%Q.
Proof.
  unfold series_min, series_max. intros Hlo Hhi Hin.
  apply numbers_In in Hin. destruct (numbers s) as [|a l]; [done|].
  injection Hlo as <-. injection Hhi as <-.
  split; [apply fold_qmin_le|apply fold_qmax_ge];
    destruct Hin as [->|Hin]; auto.
Qed.

(** X12: with the slider left at its default, the bounds of the column as
    floats, the range filter is not neutral: on a column whose bounds differ
    as floats it drops the rows whose value is missing and keeps every other
    row. *)
Theorem default_range_drops_only_nulls `{Binary64} (df df_filtered : DataFrame)
    (numeric_cols : list string) (w : Widgets) (p : nat) (lo hi : Q) :
  In (num_filter_col w) numeric_cols ->
  num_filter_col w <> "None" ->
  index_of (num_filter_col w) (columns df) = Some p ->
  columns df_filtered = columns df ->
  incl (rows df_filtered) (rows df) ->
  numeric_at df p ->
  series_min (map (at_pos p) (rows df)) = Some lo ->
  series_max (map (at_pos p) (rows df)) = Some hi ->
  ~ (to_float lo == to_float hi)%Q ->
  num_filter_range w = (to_float lo, to_float hi) ->
  filter_by_range df df_filtered numeric_cols w =
    Ok (Df (columns df_filtered)
           (List.filter (fun r => notna (at_pos p r)) (rows df_filtered)), []).
Proof.
  intros Hin Hne Hp Hcols Hrows Hnum Hlo Hhi Hvar Hrange.
  rewrite (filter_by_range_applied df df_filtered numeric_cols w p); try done.
  - f_equal. f_equal. f_equal. apply filter_ext_in. intros r Hr.
    apply Hrows in Hr. destruct (Hnum r Hr) as [Hnull|[q Hq]].
    + rewrite Hnull. by destruct (num_filter_range w).
    + rewrite Hq. simpl. apply in_range_iff. exists q. split; [done|].
      rewrite Hrange. simpl.
      destruct (series_bounds _ _ _ q Hlo Hhi) as [H1 H2].
      { rewrite <- Hq. by apply in_map. }
      split; by apply to_float_mono.
  - intros E. by rewrite E in Hin.
  - rewrite Hlo, Hhi. simpl. apply not_true_is_false.
    intros E. by apply Qeq_bool_iff in E.
Qed.

Lemma default_range_drops_only_nulls_witness :
  @filter_by_range binary64 df_marks df_marks ["mark"]
    (widgets "None" [] "mark" (1 # 1, 10 # 1)%Q) =
  Ok (Df (columns df_marks)
         (List.filter (fun r => notna (at_pos 1 r)) (rows df_marks)), []).
Proof.
  apply (@default_range_drops_only_nulls binary64 df_marks df_marks ["mark"]
           (widgets "None" [] "mark" (1 # 1, 10 # 1)%Q) 1 (1 # 1) (10 # 1)).
  - simpl. by left.
  - simpl. discriminate.
  - reflexivity.
  - reflexivity.
  - by intros r Hr.
  - intros r Hr. simpl in Hr.
    destruct Hr as [<-|[<-|[<-|[<-|[]]]]]; simpl; eauto.
  - by vm_compute.
  - by vm_compute.
  - intros E. discriminate E.
  - reflexivity.
Defined.

(* ===================================================================== *)
(** ** The two filters as tests on rows *)
(* ===================================================================== *)

Lemma category_test_built df cats w p r :
  cats <> [] ->
  cat_filter_col w <> "None" ->
  index_of (cat_filter_col w) (columns df) = Some p ->
  length (unique (dropna (map (at_pos p) (rows df)))) <= 50 ->
  cat_filter_values w <> [] ->
  category_test df cats w r = isin (cat_filter_values w) (at_pos p r).
Proof.
  intros Hcats Hne Hp Hfew Hsel. unfold category_test.
  destruct cats; [done|]. rewrite Hp.
  apply String.eqb_neq in Hne. rewrite Hne.
  apply Nat.leb_le in Hfew. rewrite Hfew.
  by rewrite bool_decide_eq_false_2.
Qed.

Lemma range_test_built `{Binary64} df nums w p r :
  nums <> [] ->
  num_filter_col w <> "None" ->
  index_of (num_filter_col w) (columns df) = Some p ->
  float_eqb (float (series_min (map (at_pos p) (rows df))))
            (float (series_max (map (at_pos p) (rows df)))) = false ->
  range_test df nums w r = in_range (num_filter_range w) (at_pos p r).
Proof.
  intros Hnums Hne Hp Hvar. unfold range_test.
  destruct nums; [done|]. rewrite Hp.
  apply String.eqb_neq in Hne. by rewrite Hne, Hvar.
Qed.

(** The categorical step keeps the rows that pass [category_test]; its
    notes do not depend on the view it is given. *)
Lemma filter_by_category_test df cats w :
  (forall c, In c cats -> In c (map fst (columns df))) ->
  selectbox_ok cats (cat_filter_col w) ->
  exists notes, forall df_filtered,
    columns df_filtered = columns df ->
    filter_by_category df df_filtered cats w =
      Ok (Df (columns df_filtered)
             (List.filter (category_test df cats w) (rows df_filtered)), notes).
Proof.
  intros Hsub Hpick.
  assert (Hsame : forall notes : list note,
    (forall r, category_test df cats w r = true) ->
    (forall df_filtered, filter_by_category df df_filtered cats w =
       Ok (df_filtered, notes)) ->
    exists notes, forall df_filtered,
      columns df_filtered = columns df ->
      filter_by_category df df_filtered cats w =
        Ok (Df (columns df_filtered)
               (List.filter (category_test df cats w) (rows df_filtered)), notes)).
  { intros notes Htest Hrun. exists notes. intros dff _.
    rewrite Hrun, filter_all, frame_eta; [done|]. intros r _. apply Htest. }
  destruct cats as [|c0 cs] eqn:Ecats; [by apply (Hsame [])|].
  rewrite <- Ecats in *.
  assert (Hcats : cats <> []) by (by rewrite Ecats).
  destruct (String.eqb (cat_filter_col w) "None") eqn:Enone.
  { apply (Hsame []).
    - intros r. unfold category_test. rewrite Ecats, Enone.
      by destruct (index_of _ _).
    - intros dff. unfold filter_by_category. by rewrite Ecats, Enone. }
  destruct Hpick as [Hpick|Hpick];
    [by rewrite <- Hpick, String.eqb_refl in Enone|].
  apply Hsub, index_of_In in Hpick as [p Hp].
  apply String.eqb_neq in Enone.
  destruct (decide (length (unique (dropna (map (at_pos p) (rows df)))) <= 50))
    as [Hfew|Hmany].
  - destruct (cat_filter_values w) as [|v vs] eqn:Esel.
    + apply (Hsame []).
      * intros r. unfold category_test. rewrite Ecats, Hp, Esel.
        rewrite bool_decide_eq_true_2 by done. by rewrite andb_false_r.
      * intros dff. unfold filter_by_category. rewrite Ecats.
        apply String.eqb_neq in Enone. rewrite Enone. simpl.
        rewrite (getitem_Ok _ _ _ Hp). simpl.
        apply Nat.leb_le in Hfew. by rewrite Hfew, Esel.
    + exists []. intros dff Hcols.
      rewrite (filter_by_category_applied df dff cats w p); try done;
        [|by rewrite Esel].
      f_equal. f_equal. f_equal. apply filter_ext. intros r.
      symmetry. apply category_test_built; try done. by rewrite Esel.
  - eapply Hsame.
    + intros r. unfold category_test. rewrite Ecats, Hp.
      apply Nat.nle_gt, Nat.leb_gt in Hmany. rewrite Hmany.
      by rewrite andb_false_r.
    + intros dff. apply (filter_by_category_too_many _ _ _ _ p); try done. lia.
Qed.

Lemma filter_by_range_test `{Binary64} df nums w :
  (forall c, In c nums -> In c (map fst (columns df))) ->
  selectbox_ok nums (num_filter_col w) ->
  exists notes, forall df_filtered,
    columns df_filtered = columns df ->
    filter_by_range df df_filtered nums w =
      Ok (Df (columns df_filtered)
             (List.filter (range_test df nums w) (rows df_filtered)), notes).
Proof.
  intros Hsub Hpick.
  assert (Hsame : forall notes : list note,
    (forall r, range_test df nums w r = true) ->
    (forall df_filtered, filter_by_range df df_filtered nums w =
       Ok (df_filtered, notes)) ->
    exists notes, forall df_filtered,
      columns df_filtered = columns df ->
      filter_by_range df df_filtered nums w =
        Ok (Df (columns df_filtered)
               (List.filter (range_test df nums w) (rows df_filtered)), notes)).
  { intros notes Htest Hrun. exists notes. intros dff _.
    rewrite Hrun, filter_all, frame_eta; [done|]. intros r _. apply Htest. }
  destruct nums as [|c0 cs] eqn:Enums; [by apply (Hsame [])|].
  rewrite <- Enums in *.
  assert (Hnums : nums <> []) by (by rewrite Enums).
  destruct (String.eqb (num_filter_col w) "None") eqn:Enone.
  { apply (Hsame []).
    - intros r. unfold range_test. rewrite Enums, Enone.
      by destruct (index_of _ _).
    - intros dff. unfold filter_by_range. by rewrite Enums, Enone. }
  destruct Hpick as [Hpick|Hpick];
    [by rewrite <- Hpick, String.eqb_refl in Enone|].
  apply Hsub, index_of_In in Hpick as [p Hp].
  destruct (float_eqb (float (series_min (map (at_pos p) (rows df))))
                      (float (series_max (map (at_pos p) (rows df))))) eqn:Econst.
  - eapply Hsame.
    + intros r. unfold range_test. rewrite Enums, Hp, Econst.
      by rewrite andb_false_r.
    + intros dff. unfold filter_by_range. rewrite Enums, Enone. simpl.
      rewrite (getitem_Ok _ _ _ Hp). simpl. rewrite Econst. reflexivity.
  - apply String.eqb_neq in Enone. exists []. intros dff Hcols.
    rewrite (filter_by_range_applied df dff nums w p); try done.
    f_equal. f_equal. f_equal. apply filter_ext. intros r.
    symmetry. by apply range_test_built.
Qed.

(** X13: the two filters commute.  The view is made of the rows of the
    table that pass both tests; running the range step before the
    categorical step gives the same view with the same notes. *)
Theorem filters_commute `{Binary64} (df : DataFrame) (w : Widgets) :
  let numeric_cols := fst (get_column_types df) in
  let categorical_cols := snd (get_column_types df) in
  selectbox_ok categorical_cols (cat_filter_col w) ->
  selectbox_ok numeric_cols (num_filter_col w) ->
  exists view by_category by_range notes1 notes2,
    filter_by_category df (copy df) categorical_cols w = Ok (by_category, notes1) /\
    filter_by_range df by_category numeric_cols w = Ok (view, notes2) /\
    filter_by_range df (copy df) numeric_cols w = Ok (by_range, notes2) /\
    filter_by_category df by_range categorical_cols w = Ok (view, notes1) /\
    filter_explore df w = Ok (view, notes1 ++ notes2) /\
    rows view =
      List.filter (fun r => category_test df categorical_cols w r &&
                            range_test df numeric_cols w r) (rows df).
Proof.
  intros nums cats Hcat Hnum.
  destruct (column_types_in_header df) as [Hn Hc].
  destruct (filter_by_category_test df cats w Hc Hcat) as [notes1 Hstep1].
  destruct (filter_by_range_test df nums w Hn Hnum) as [notes2 Hstep2].
  pose proof (Hstep1 (copy df) eq_refl) as E1.
  pose proof (Hstep2 (copy df) eq_refl) as E2.
  pose proof (Hstep2 _ (eq_refl : columns (Df (columns (copy df))
                 (List.filter (category_test df cats w) (rows (copy df))))
               = columns df)) as E12.
  pose proof (Hstep1 _ (eq_refl : columns (Df (columns (copy df))
                 (List.filter (range_test df nums w) (rows (copy df))))
               = columns df)) as E21.
  simpl in E12, E21. rewrite filter_filter in E12. rewrite filter_filter in E21.
  replace (List.filter (fun x => range_test df nums w x && category_test df cats w x)
             (rows (copy df)))
    with (List.filter (fun x => category_test df cats w x && range_test df nums w x)
             (rows (copy df))) in E21
    by (apply filter_ext; intros r; apply andb_comm).
  eexists _, _, _, notes1, notes2.
  split; [exact E1|]. split; [exact E12|]. split; [exact E2|].
  split; [exact E21|]. split; [|done].
  unfold filter_explore. fold nums cats.
  replace (get_column_types df) with (nums, cats) by (by destruct (get_column_types df)).
  rewrite E1. simpl. by rewrite E12.
Qed.

Lemma filters_commute_witness :
  exists view by_category by_range notes1 notes2,
    filter_by_category df_marks (copy df_marks) ["city"]
      (widgets "city" [text "Paris"] "mark" (2 # 1, 10 # 1)%Q) =
      Ok (by_category, notes1) /\
    @filter_by_range binary64 df_marks by_category ["mark"]
      (widgets "city" [text "Paris"] "mark" (2 # 1, 10 # 1)%Q) =
      Ok (view, notes2) /\
    @filter_by_range binary64 df_marks (copy df_marks) ["mark"]
      (widgets "city" [text "Paris"] "mark" (2 # 1, 10 # 1)%Q) =
      Ok (by_range, notes2) /\
    filter_by_category df_marks by_range ["city"]
      (widgets "city" [text "Paris"] "mark" (2 # 1, 10 # 1)%Q) =
      Ok (view, notes1) /\
    @filter_explore binary64 df_marks
      (widgets "city" [text "Paris"] "mark" (2 # 1, 10 # 1)%Q) =
      Ok (view, notes1 ++ notes2) /\
    rows view =
      List.filter (fun r =>
          category_test df_marks ["city"]
            (widgets "city" [text "Paris"] "mark" (2 # 1, 10 # 1)%Q) r &&
          @range_test binary64 df_marks ["mark"]
            (widgets "city" [text "Paris"] "mark" (2 # 1, 10 # 1)%Q) r)
        (rows df_marks).
Proof.
  apply (@filters_commute binary64 df_marks
           (widgets "city" [text "Paris"] "mark" (2 # 1, 10 # 1)%Q)).
  - right. simpl. by left.
  - right. simpl. by left.
Defined.

(* ===================================================================== *)
(** ** Widening a filter *)
(* ===================================================================== *)

Lemma filter_sublist_impl {A} (f g : A -> bool) (l : list A) :
  (forall x, In x l -> f x = true -> g x = true) ->
  sublist (List.filter f l) (List.filter g l).
Proof.
  induction l as [|x l IH]; intros Himp; simpl; [constructor|].
  assert (Hl : sublist (List.filter f l) (List.filter g l)).
  { apply IH. intros y Hy. apply Himp. by right. }
  destruct (f x) eqn:Ef.
  - rewrite (Himp x (or_introl eq_refl) Ef). by constructor.
  - destruct (g x); [by constructor|done].
Qed.

Lemma isin_incl allowed allowed' c :
  incl allowed allowed' -> isin allowed c = true -> isin allowed' c = true.
Proof.
  unfold isin. rewrite !existsb_exists. intros Hincl (y & Hy & E).
  exists y. split; [by apply Hincl|done].
Qed.

(** X19: adding values to a selection that is not empty never removes a row
    from the view: the view under the smaller selection is a subsequence of
    the view under the larger one. *)
Theorem wider_selection_keeps_rows (df df_filtered : DataFrame)
    (categorical_cols : list string) (w w' : Widgets) :
  (forall c, In c categorical_cols -> In c (map fst (columns df))) ->
  selectbox_ok categorical_cols (cat_filter_col w) ->
  columns df_filtered = columns df ->
  cat_filter_col w' = cat_filter_col w ->
  cat_filter_values w <> [] ->
  incl (cat_filter_values w) (cat_filter_values w') ->
  exists view view' notes notes',
    filter_by_category df df_filtered categorical_cols w = Ok (view, notes) /\
    filter_by_category df df_filtered categorical_cols w' = Ok (view', notes') /\
    sublist (rows view) (rows view').
Proof.
  intros Hsub Hpick Hcols Hcol Hsel Hincl.
  assert (Hpick' : selectbox_ok categorical_cols (cat_filter_col w'))
    by (by rewrite Hcol).
  assert (Hsel' : cat_filter_values w' <> []).
  { destruct (cat_filter_values w) as [|v vs]; [done|].
    intros E. rewrite E in Hincl. apply (Hincl v). by left. }
  destruct (filter_by_category_test df categorical_cols w Hsub Hpick)
    as [notes Hrun].
  destruct (filter_by_category_test df categorical_cols w' Hsub Hpick')
    as [notes' Hrun'].
  eexists _, _, notes, notes'.
  split; [by apply Hrun|]. split; [by apply Hrun'|]. simpl.
  apply filter_sublist_impl. intros r _. unfold category_test.
  rewrite Hcol. destruct categorical_cols; [done|].
  destruct (index_of (cat_filter_col w) (columns df)); [|done].
  rewrite (bool_decide_eq_false_2 _ Hsel), (bool_decide_eq_false_2 _ Hsel').
  destruct (negb _ && _ && _); [|done]. by apply isin_incl.
Qed.

Lemma wider_selection_keeps_rows_witness :
  exists view view' notes notes',
    filter_by_category df_marks df_marks ["city"]
      (widgets "city" [text "Rome"] "None" (0, 0)%Q) = Ok (view, notes) /\
    filter_by_category df_marks df_marks ["city"]
      (widgets "city" [text "Paris"; text "Rome"] "None" (0, 0)%Q) =
      Ok (view', notes') /\
    sublist (rows view) (rows view').
Proof.
  apply (wider_selection_keeps_rows df_marks df_marks ["city"]
           (widgets "city" [text "Rome"] "None" (0, 0)%Q)
           (widgets "city" [text "Paris"; text "Rome"] "None" (0, 0)%Q)).
  - intros c [<-|[]]. simpl. by left.
  - right. by left.
  - reflexivity.
  - reflexivity.
  - simpl. discriminate.
  - intros c [<-|[]]. simpl. right. by left.
Defined.

(** X20: widening the range never removes a row: the view under the range
    [lo, hi] is a subsequence of the view under any range that contains
    it. *)
Theorem wider_range_keeps_rows `{Binary64} (df df_filtered : DataFrame)
    (numeric_cols : list string) (w w' : Widgets) :
  (forall c, In c numeric_cols -> In c (map fst (columns df))) ->
  selectbox_ok numeric_cols (num_filter_col w) ->
  columns df_filtered = columns df ->
  num_filter_col w' = num_filter_col w ->
  (fst (num_filter_range w') <= fst (num_filter_range w))%Q ->
  (snd (num_filter_range w) <= snd (num_filter_range w'))%Q ->
  exists view view' notes notes',
    filter_by_range df df_filtered numeric_cols w = Ok (view, notes) /\
    filter_by_range df df_filtered numeric_cols w' = Ok (view', notes') /\
    sublist (rows view) (rows view').
Proof.
  intros Hsub Hpick Hcols Hcol Hlo Hhi.
  assert (Hpick' : selectbox_ok numeric_cols (num_filter_col w'))
    by (by rewrite Hcol).
  destruct (filter_by_range_test df numeric_cols w Hsub Hpick) as [notes Hrun].
  destruct (filter_by_range_test df numeric_cols w' Hsub Hpick')
    as [notes' Hrun'].
  eexists _, _, notes, notes'.
  split; [by apply Hrun|]. split; [by apply Hrun'|]. simpl.
  apply filter_sublist_impl. intros r _. unfold range_test.
  rewrite Hcol. destruct numeric_cols; [done|].
  destruct (index_of (num_filter_col w) (columns df)); [|done].
  destruct (negb _ && _); [|done].
  rewrite !in_range_iff. intros (q & Hq & H1 & H2). exists q.
  split; [done|]. split; eapply Qle_trans; eauto.
Qed.

Lemma wider_range_keeps_rows_witness :
  exists view view' notes notes',
    @filter_by_range binary64 df_marks df_marks ["mark"]
      (widgets "None" [] "mark" (2 # 1, 6 # 1)%Q) = Ok (view, notes) /\
    @filter_by_range binary64 df_marks df_marks ["mark"]
      (widgets "None" [] "mark" (1 # 1, 10 # 1)%Q) = Ok (view', notes') /\
    sublist (rows view) (rows view').
Proof.
  apply (@wider_range_keeps_rows binary64 df_marks df_marks ["mark"]
           (widgets "None" [] "mark" (2 # 1, 6 # 1)%Q)
           (widgets "None" [] "mark" (1 # 1, 10 # 1)%Q)).
  - intros c [<-|[]]. simpl. right. by left.
  - right. by left.
  - reflexivity.
  - reflexivity.
  - simpl. unfold Qle. simpl. lia.
  - simpl. unfold Qle. simpl. lia.
Defined.

(* ===================================================================== *)
(** ** The share of rows kept, and what is plotted *)
(* ===================================================================== *)

Lemma select_sublist {A} (mask : list bool) (l : list A) :
  sublist (select mask l) l.
Proof.
  revert mask. induction l as [|x l IH]; intros [|b mask]; simpl;
    try apply sublist_nil_l.
  destruct b; constructor; apply IH.
Qed.

Lemma filter_by_category_rows df df_filtered cats w view notes :
  filter_by_category df df_filtered cats w = Ok (view, notes) ->
  sublist (rows view) (rows df_filtered).
Proof.
  unfold filter_by_category. destruct cats; [by intros [= <- _]|].
  destruct (negb _); [|by intros [= <- _]].
  destruct (getitem df _); simpl; [|done].
  destruct (_ <=? 50); [|by intros [= <- _]].
  destruct (cat_filter_values w); [by intros [= <- _]|].
  destruct (getitem df_filtered _); simpl; [|done].
  intros [= <- _]. apply select_sublist.
Qed.

Lemma filter_by_range_rows `{Binary64} df df_filtered nums w view notes :
  filter_by_range df df_filtered nums w = Ok (view, notes) ->
  sublist (rows view) (rows df_filtered).
Proof.
  unfold filter_by_range. destruct nums; [by intros [= <- _]|].
  destruct (negb _); [|by intros [= <- _]].
  destruct (getitem df _); simpl; [|done].
  destruct (float_eqb _ _); [by intros [= <- _]|].
  destruct (getitem df_filtered _); simpl; [|done].
  intros [= <- _]. apply select_sublist.
Qed.

Lemma filter_explore_rows `{Binary64} df w view notes :
  filter_explore df w = Ok (view, notes) -> sublist (rows view) (rows df).
Proof.
  unfold filter_explore. destruct (get_column_types df) as [nums cats].
  destruct (filter_by_category df (copy df) cats w) as [[v1 n1]|] eqn:E1;
    simpl; [|done].
  destruct (filter_by_range df v1 nums w) as [[v2 n2]|] eqn:E2; simpl; [|done].
  intros [= <- _]. etrans.
  - by apply (filter_by_range_rows _ _ _ _ _ _ E2).
  - by apply (filter_by_category_rows _ _ _ _ _ _ E1).
Qed.

(** X14: the line that reports the filtered data set.  The view never has
    more rows than the table; on a table with rows the share shown is a
    number between 0 and 100, and it is 100 when no row was dropped; on a
    table without rows the division raises ZeroDivisionError. *)
Theorem filtered_share_bounds `{Binary64} (df : DataFrame) (w : Widgets)
    (view : DataFrame) (notes : list note) :
  filter_explore df w = Ok (view, notes) ->
  len view <= len df /\
  (len df = 0 -> filtered_share df view = Raise ZeroDivisionError) /\
  (0 < len df ->
   exists q, filtered_share df view = Ok (Float.Num q) /\
     (0 <= q)%Q /\ (q <= 100 # 1)%Q /\
     (len view = len df -> (q == 100 # 1)%Q)).
Proof.
  intros Hview.
  assert (Hle : len view <= len df).
  { apply sublist_length. by eapply filter_explore_rows. }
  split; [done|]. unfold filtered_share. split.
  - by intros ->.
  - intros Hpos. destruct (len df) as [|n] eqn:En; [lia|]. simpl.
    eexists. split; [reflexivity|].
    destruct (count_ratio_bounds (len view) n Hle) as [H0 H1].
    set (a := (Z.of_nat (len view) # Pos.of_nat (S n))%Q) in *.
    destruct (to_float_range 0 1 a) as [Ha0 Ha1]; [lia|lia|done|done|].
    destruct (to_float_range 0 100 (to_float a * (100 # 1))) as [Hx0 Hx1];
      [lia|lia|unfold inject_Z in *; lra|unfold inject_Z in *; lra|].
    set (x := to_float (to_float a * (100 # 1))) in *.
    destruct (rint_bounds (x * (10 # 1)) 1000) as [Hb0 Hb1].
    assert (Hz0 : (0 <= Float.rint (x * (10 # 1)))%Z)
      by (apply Hb0; unfold inject_Z in *; lra).
    assert (Hz1 : (Float.rint (x * (10 # 1)) <= 1000)%Z)
      by (apply Hb1; unfold inject_Z in *; lra).
    assert (Heq : len view = S n -> Float.rint (x * (10 # 1)) = 1000%Z).
    { intros Hall. apply rint_of_integer.
      assert (Ha : (a == inject_Z 1)%Q).
      { unfold a, Qeq, inject_Z. cbn [Qnum Qden].
        rewrite Hall, <- Pos.of_nat_succ, Zpos_P_of_succ_nat. lia. }
      assert (Hfa : (to_float a == inject_Z 1)%Q).
      { rewrite (to_float_proper _ _ Ha). apply to_float_int. lia. }
      assert (Hx : (x == inject_Z 100)%Q).
      { unfold x. rewrite (to_float_proper _ (inject_Z 100)).
        - apply to_float_int. lia.
        - rewrite Hfa. reflexivity. }
      rewrite Hx. reflexivity. }
    revert Hz0 Hz1 Heq. generalize (Float.rint (x * (10 # 1))). intros z Hz0 Hz1 Heq.
    unfold Qdiv. change (/ (10 # 1))%Q with (1 # 10)%Q.
    assert (Hi0 : (0 <= inject_Z z)%Q) by (unfold Qle, inject_Z; simpl; lia).
    assert (Hi1 : (inject_Z z <= 1000 # 1)%Q)
      by (unfold Qle, inject_Z; simpl; lia).
    split; [lra|]. split; [lra|].
    intros Hall. rewrite (Heq Hall). reflexivity.
Qed.

Lemma filtered_share_bounds_witness :
  len (Df (columns df_marks)
          [Row 0 [text "Paris"; num 1]; Row 3 [text "Paris"; num 10]])
    <= len df_marks /\
  (len df_marks = 0 ->
   @filtered_share binary64 df_marks
     (Df (columns df_marks)
         [Row 0 [text "Paris"; num 1]; Row 3 [text "Paris"; num 10]]) =
     Raise ZeroDivisionError) /\
  (0 < len df_marks ->
   exists q,
     @filtered_share binary64 df_marks
       (Df (columns df_marks)
           [Row 0 [text "Paris"; num 1]; Row 3 [text "Paris"; num 10]]) =
       Ok (Float.Num q) /\
     (0 <= q)%Q /\ (q <= 100 # 1)%Q /\
     (len (Df (columns df_marks)
              [Row 0 [text "Paris"; num 1]; Row 3 [text "Paris"; num 10]]) =
        len df_marks -> (q == 100 # 1)%Q)).
Proof.
  apply (@filtered_share_bounds binary64 df_marks
           (widgets "city" [text "Paris"] "None" (0, 0)%Q) _ []).
  by vm_compute.
Defined.

(** X15: with at least two numeric columns of distinct names, the default
    of the Y axis is found without IndexError or ValueError, it is one of
    the numeric columns, and it is never the column chosen for X. *)
Theorem y_default_differs (numeric_cols_plot : list string) (x_col : string) :
  2 <= length numeric_cols_plot ->
  NoDup numeric_cols_plot ->
  exists y i,
    y_default numeric_cols_plot x_col = Some y /\
    y_default_index numeric_cols_plot x_col = Some i /\
    numeric_cols_plot !! i = Some y /\
    y <> x_col.
Proof.
  intros Hlen Hnd. destruct numeric_cols_plot as [|c0 [|c1 rest]];
    simpl in Hlen; try lia.
  apply NoDup_cons in Hnd as [Hfresh _].
  assert (Hne : c0 <> c1) by (intros ->; apply Hfresh; by left).
  unfold y_default_index, y_default. simpl.
  destruct (String.eqb c1 x_col) eqn:E; simpl.
  - apply String.eqb_eq in E as <-. exists c0, 0.
    by rewrite String.eqb_refl.
  - apply String.eqb_neq in E. exists c1, 1.
    apply String.eqb_neq in Hne. by rewrite Hne, String.eqb_refl.
Qed.

Lemma y_default_differs_witness :
  exists y i,
    y_default ["x"; "y"] "y" = Some y /\
    y_default_index ["x"; "y"] "y" = Some i /\
    ["x"; "y"] !! i = Some y /\
    y <> "y".
Proof.
  apply (y_default_differs ["x"; "y"] "y").
  - simpl. lia.
  - apply NoDup_cons. split; [by intros ?%list_elem_of_singleton|].
    apply NoDup_singleton.
Defined.

Lemma filter_explore_tests `{Binary64} df w :
  selectbox_ok (snd (get_column_types df)) (cat_filter_col w) ->
  selectbox_ok (fst (get_column_types df)) (num_filter_col w) ->
  exists view notes,
    filter_explore df w = Ok (view, notes) /\
    columns view = columns df /\
    rows view =
      List.filter (fun r => category_test df (snd (get_column_types df)) w r &&
                            range_test df (fst (get_column_types df)) w r)
                  (rows df).
Proof.
  intros Hcat Hnum. destruct (column_types_in_header df) as [Hn Hc].
  destruct (filter_by_category_test df _ w Hc Hcat) as [notes1 Hstep1].
  destruct (filter_by_range_test df _ w Hn Hnum) as [notes2 Hstep2].
  unfold filter_explore.
  destruct (get_column_types df) as [nums cats] eqn:Etypes. simpl in *.
  rewrite (Hstep1 (copy df) eq_refl). simpl.
  rewrite (Hstep2 _ (eq_refl : columns (Df (columns (copy df))
             (List.filter (category_test df cats w) (rows (copy df))))
           = columns df)). simpl.
  eexists _, _. split; [reflexivity|]. simpl. split; [done|].
  apply filter_filter.
Qed.

(** C9: whatever the user selects, the filter section returns the frame's
    own columns over exactly the rows of the source that pass the test of
    the categorical step and the test of the range step, each row with its
    original label and cells, in source order: the rows of the view are a
    subsequence of the rows of the table, and so are their labels. *)
Theorem view_rows_in_source_order `{Binary64} (df : DataFrame) (w : Widgets) :
  selectbox_ok (snd (get_column_types df)) (cat_filter_col w) ->
  selectbox_ok (fst (get_column_types df)) (num_filter_col w) ->
  exists view notes,
    filter_explore df w = Ok (view, notes) /\
    columns view = columns df /\
    rows view =
      List.filter (fun r => category_test df (snd (get_column_types df)) w r &&
                            range_test df (fst (get_column_types df)) w r)
                  (rows df) /\
    sublist (rows view) (rows df) /\
    sublist (map label (rows view)) (map label (rows df)).
Proof.
  intros Hcat Hnum.
  destruct (filter_explore_tests df w Hcat Hnum) as (view & notes & Hrun & Hcols & Hrows).
  exists view, notes. split; [exact Hrun|]. split; [exact Hcols|].
  split; [exact Hrows|].
  assert (Hsub : sublist (rows view) (rows df)).
  { rewrite Hrows. apply filter_sublist. }
  split; [exact Hsub|].
  change (map label) with (fmap (M:=list) label). by apply fmap_sublist.
Qed.

Lemma view_rows_in_source_order_witness :
  exists view notes,
    @filter_explore binary64 df_city
      (widgets "city" [text "Rome"; text "Paris"] "None" (0, 0)%Q)
      = Ok (view, notes) /\
    columns view = columns df_city /\
    rows view =
      List.filter
        (fun r =>
           category_test df_city (snd (get_column_types df_city))
             (widgets "city" [text "Rome"; text "Paris"] "None" (0, 0)%Q) r &&
           @range_test binary64 df_city (fst (get_column_types df_city))
             (widgets "city" [text "Rome"; text "Paris"] "None" (0, 0)%Q) r)
        (rows df_city) /\
    sublist (rows view) (rows df_city) /\
    sublist (map label (rows view)) (map label (rows df_city)).
Proof.
  apply (@view_rows_in_source_order binary64 df_city
           (widgets "city" [text "Rome"; text "Paris"] "None" (0, 0)%Q)).
  - right. simpl. by left.
  - by left.
Defined.

Lemma scatter_sample_rows `{Sampler} (d : DataFrame) :
  exists sc,
    scatter_sample d = Ok sc /\
    len sc = min 5000 (len d) /\
    forall r, In r (rows sc) -> In r (rows d).
Proof.
  unfold scatter_sample. destruct (5000 <? len d) eqn:E.
  - apply Nat.ltb_lt in E. unfold sample.
    assert (Hle : (5000 <=? len d) = true) by (apply Nat.leb_le; lia).
    rewrite Hle. eexists. split; [reflexivity|]. split.
    + pose proof (rows_at_positions (rows d) (choice 42 (len d) 5000)
                    (choice_bound 42 (len d) 5000)) as Hrows.
      unfold len at 1. etrans; [symmetry; apply (Forall2_length _ _ _ Hrows)|].
      rewrite choice_length; lia.
    + intros r Hr. apply list_elem_of_In in Hr. apply list_elem_of_In.
      apply list_elem_of_omap in Hr as (i & _ & Hi).
      by apply list_elem_of_lookup_2 in Hi.
  - apply Nat.ltb_ge in E. exists d. split; [done|]. split; [lia|done].
Qed.

(** X17: what the scatter plot draws.  Whatever the user selects, the
    points are at most 5000, as many as the view has rows when these are no
    more than 5000, and every point is a row of the table that passes both
    filters. *)
Theorem scatter_points_pass_filters `{Binary64}
    `{Sampler} (df : DataFrame) (w : Widgets) :
  selectbox_ok (snd (get_column_types df)) (cat_filter_col w) ->
  selectbox_ok (fst (get_column_types df)) (num_filter_col w) ->
  exists view notes df_scatter,
    filter_explore df w = Ok (view, notes) /\
    scatter_sample view = Ok df_scatter /\
    len df_scatter = min 5000 (len view) /\
    forall r, In r (rows df_scatter) ->
      In r (rows df) /\
      category_test df (snd (get_column_types df)) w r = true /\
      range_test df (fst (get_column_types df)) w r = true.
Proof.
  intros Hcat Hnum.
  destruct (filter_explore_tests df w Hcat Hnum) as (view & notes & Hview & _ & Hrows).
  destruct (scatter_sample_rows view) as (sc & Hsc & Hlen & Hin).
  exists view, notes, sc. split; [done|]. split; [done|]. split; [done|].
  intros r Hr. apply Hin in Hr. rewrite Hrows in Hr.
  apply filter_In in Hr as [Hr Htests]. by apply andb_true_iff in Htests.
Qed.

Lemma scatter_points_pass_filters_witness :
  exists view notes df_scatter,
    @filter_explore binary64 df_large (widgets "None" [] "x" (10 # 1, 20000 # 1)%Q) =
      Ok (view, notes) /\
    @scatter_sample tail_sampler view = Ok df_scatter /\
    len df_scatter = min 5000 (len view) /\
    forall r, In r (rows df_scatter) ->
      In r (rows df_large) /\
      category_test df_large (snd (get_column_types df_large))
        (widgets "None" [] "x" (10 # 1, 20000 # 1)%Q) r = true /\
      @range_test binary64 df_large (fst (get_column_types df_large))
        (widgets "None" [] "x" (10 # 1, 20000 # 1)%Q) r = true.
Proof.
  apply (@scatter_points_pass_filters binary64 tail_sampler df_large
           (widgets "None" [] "x" (10 # 1, 20000 # 1)%Q)).
  - by left.
  - right. simpl. by left.
Defined.

(* ===================================================================== *)
(** ** The options of the multiselect *)
(* ===================================================================== *)

Lemma ForallOrdPairs_filter {A} (R : A -> A -> Prop) (f : A -> bool) l :
  ForallOrdPairs R l -> ForallOrdPairs R (List.filter f l).
Proof.
  induction 1 as [|a l Ha Hl IH]; simpl; [constructor|].
  destruct (f a); [|done]. constructor; [|done].
  apply List.Forall_forall. intros x Hx. apply filter_In in Hx as [Hx _].
  by apply (proj1 (List.Forall_forall _ _) Ha).
Qed.

Lemma unique_distinct s :
  ForallOrdPairs (fun a b => cell_eqb a b = false) (unique s).
Proof.
  induction s as [|x s IH]; simpl; constructor.
  - apply List.Forall_forall. intros y Hy. apply filter_In in Hy as [_ Hy].
    by apply negb_true_iff in Hy.
  - by apply ForallOrdPairs_filter.
Qed.

Lemma unique_length s : length (unique s) <= length s.
Proof.
  induction s as [|x s IH]; simpl; [done|].
  pose proof (filter_length_le (fun y => negb (cell_eqb x y)) (unique s)). lia.
Qed.

(** X18: the options offered for a column are its distinct non-null values:
    no option is Null, every option occurs in the column, every non-null
    cell of the column equals one of the options, no two options are equal,
    and there are no more options than non-null cells. *)
Theorem multiselect_options (s : list cell) :
  let options := unique (dropna s) in
  ~ In None options /\
  (forall c, In c options -> In c s) /\
  (forall c, In c s -> c <> None -> isin options c = true) /\
  ForallOrdPairs (fun a b => cell_eqb a b = false) options /\
  length options <= notna_sum s.
Proof.
  simpl. split; [apply unique_values_no_null|]. split; [|split; [|split]].
  - intros c Hc. apply unique_In in Hc. unfold dropna in Hc.
    by apply filter_In in Hc as [Hc _].
  - intros c Hc Hnn. rewrite (isin_unique_values s c Hc). by destruct c.
  - apply unique_distinct.
  - rewrite notna_sum_dropna. apply unique_length.
Qed.

(* ===================================================================== *)
(** ** The category breakdown *)
(* ===================================================================== *)

Lemma count_of_equal x v l :
  cell_eqb x v = true -> count_of v l = count_of x l.
Proof.
  intros E. unfold count_of. f_equal. apply filter_ext. intros y.
  destruct (cell_eqb x y) eqn:Exy.
  - rewrite cell_eqb_sym in E. apply (cell_eqb_trans _ _ _ E Exy).
  - destruct (cell_eqb v y) eqn:Evy; [|done].
    by rewrite (cell_eqb_trans _ _ _ E Evy) in Exy.
Qed.

Lemma representatives_le_one x l :
  length (List.filter (cell_eqb x) (unique l)) <= 1.
Proof.
  induction l as [|y l IH]; simpl; [lia|].
  destruct (cell_eqb x y) eqn:Exy; simpl.
  - rewrite (proj2 (filter_nil_iff _ _)); [done|].
    intros z Hz. apply filter_In in Hz as [_ Hz].
    apply negb_true_iff in Hz. destruct (cell_eqb x z) eqn:Exz; [|done].
    rewrite cell_eqb_sym in Exy.
    by rewrite (cell_eqb_trans _ _ _ Exy Exz) in Hz.
  - etrans; [|exact IH]. rewrite filter_filter.
    replace (List.filter (fun z => negb (cell_eqb y z) && cell_eqb x z) (unique l))
      with (List.filter (fun z => negb (cell_eqb y z))
              (List.filter (cell_eqb x) (unique l))).
    + apply filter_length_le.
    + rewrite filter_filter. apply filter_ext. intros z. apply andb_comm.
Qed.

Lemma representative_exists x l :
  0 < count_of x l -> List.filter (cell_eqb x) (unique l) <> [].
Proof.
  unfold count_of. intros Hpos Hnil.
  destruct (List.filter (cell_eqb x) l) as [|y ys] eqn:E; [simpl in Hpos; lia|].
  assert (Hy : In y (List.filter (cell_eqb x) l)) by (rewrite E; by left).
  apply filter_In in Hy as [Hy Exy].
  pose proof (isin_unique y l Hy) as Hrep. unfold isin in Hrep.
  apply existsb_exists in Hrep as (z & Hz & Eyz).
  assert (Hin : In z (List.filter (cell_eqb x) (unique l))).
  { apply filter_In. split; [done|]. by apply (cell_eqb_trans _ y). }
  by rewrite Hnil in Hin.
Qed.

Lemma sum_counts_split l (f : cell -> bool) (U : list cell) :
  sum_counts (map (counted l) U) =
  sum_counts (map (counted l) (List.filter f U)) +
  sum_counts (map (counted l) (List.filter (fun v => negb (f v)) U)).
Proof.
  induction U as [|v U IH]; simpl; [done|].
  destruct (f v); simpl; lia.
Qed.

Lemma sum_counts_ext l l' (U : list cell) :
  (forall v, In v U -> count_of v l = count_of v l') ->
  sum_counts (map (counted l) U) = sum_counts (map (counted l') U).
Proof.
  induction U as [|v U IH]; intros Hext; simpl; [done|].
  rewrite (Hext v) by (by left). f_equal. apply IH.
  intros u Hu. apply Hext. by right.
Qed.

Lemma sum_counts_representatives x l :
  sum_counts (map (counted l) (List.filter (cell_eqb x) (unique l))) =
  count_of x l.
Proof.
  pose proof (representatives_le_one x l) as Hle.
  pose proof (representative_exists x l) as Hex.
  destruct (List.filter (cell_eqb x) (unique l)) as [|v [|v' vs]] eqn:E;
    simpl in *; [| |lia].
  - destruct (count_of x l); [done|]. exfalso. apply Hex; [lia|done].
  - assert (Hv : In v (List.filter (cell_eqb x) (unique l))) by (rewrite E; by left).
    apply filter_In in Hv as [_ Hv]. rewrite (count_of_equal x v l Hv). lia.
Qed.

(** The counts of the distinct values add up to the length of the list. *)
Lemma sum_counts_unique l :
  sum_counts (map (counted l) (unique l)) = length l.
Proof.
  induction l as [|x t IH]; simpl; [done|].
  unfold count_of at 1. simpl. rewrite cell_eqb_refl. simpl.
  rewrite (sum_counts_ext (x :: t) t).
  - rewrite (sum_counts_split t (cell_eqb x) (unique t)) in IH.
    rewrite sum_counts_representatives in IH. fold (count_of x t). lia.
  - intros v Hv. apply filter_In in Hv as [_ Hv]. apply negb_true_iff in Hv.
    unfold count_of. simpl. rewrite cell_eqb_sym in Hv. by rewrite Hv.
Qed.

Lemma sum_counts_perm (l k : list (cell * nat)) :
  Permutation l k -> sum_counts l = sum_counts k.
Proof. induction 1; simpl; lia. Qed.

Lemma StronglySorted_app {A} (R : A -> A -> Prop) (l1 l2 : list A) :
  StronglySorted R (l1 ++ l2) ->
  StronglySorted R l1 /\ (forall a b, In a l1 -> In b l2 -> R a b).
Proof.
  induction l1 as [|x l1 IH]; simpl; intros Hs.
  - split; [constructor|done].
  - apply StronglySorted_inv in Hs as [Hs Hx]. destruct (IH Hs) as [Hs1 Hcross].
    split.
    + constructor; [done|]. apply List.Forall_forall. intros y Hy.
      apply (proj1 (List.Forall_forall _ _) Hx). apply in_or_app. by left.
    + intros a b [<-|Ha] Hb; [|by apply Hcross].
      apply (proj1 (List.Forall_forall _ _) Hx). apply in_or_app. by right.
Qed.

Section Breakdown.
Context `{SortValues}.

Lemma value_counts_perm s :
  Permutation (value_counts s) (map (counted (dropna s)) (unique (dropna s))).
Proof. apply sort_values_perm. Qed.

Lemma value_counts_sorted s :
  StronglySorted (fun a b : cell * nat => snd b <= snd a) (value_counts s).
Proof.
  apply Sorted_StronglySorted.
  - intros a b c Hab Hbc. lia.
  - apply (sort_values_sorted _ (@snd cell nat) false).
Qed.

(** X16: the bars of the category breakdown.  There is one bar per distinct
    non-null value, cut to 20 with a caption exactly when there are more;
    the bars come by falling count and no hidden value is more frequent
    than a shown one; each bar carries a non-null value of the column with
    the number of its occurrences, at least 1; and without the cut the
    counts add up to the number of non-null cells. *)
Theorem category_breakdown_bars (df_plot : DataFrame) (cat_col : string)
    (s : list cell) :
  getitem df_plot cat_col = Ok s ->
  exists bars caption,
    category_breakdown df_plot cat_col = Ok (bars, caption) /\
    length bars = min 20 (length (unique (dropna s))) /\
    (caption = true <-> 20 < length (unique (dropna s))) /\
    StronglySorted (fun a b : cell * nat => snd b <= snd a) bars /\
    (forall shown hidden, In shown bars -> In hidden (drop 20 (value_counts s)) ->
       snd hidden <= snd shown) /\
    (forall v n, In (v, n) bars ->
       v <> None /\ In v s /\ n = count_of v (dropna s) /\ 1 <= n) /\
    (caption = false -> sum_counts bars = notna_sum s).
Proof.
  intros Hs. unfold category_breakdown. rewrite Hs.
  unfold mbind, result_bind. cbv beta iota.
  pose proof (value_counts_perm s) as Hperm.
  pose proof (value_counts_sorted s) as Hsorted.
  assert (Hlen : length (value_counts s) = length (unique (dropna s))).
  { by rewrite (Permutation_length Hperm), length_map. }
  assert (Hbar : forall v n, In (v, n) (value_counts s) ->
            v <> None /\ In v s /\ n = count_of v (dropna s) /\ 1 <= n).
  { intros v n Hin. apply list_elem_of_In in Hin. rewrite Hperm in Hin.
    apply list_elem_of_In, in_map_iff in Hin as (u & [= <- <-] & Hu).
    pose proof (unique_In _ _ Hu) as Hu'.
    split; [intros ->; by apply (unique_values_no_null s)|].
    split; [unfold dropna in Hu'; by apply filter_In in Hu' as [? _]|].
    split; [done|]. unfold count_of.
    assert (Hc : In u (List.filter (cell_eqb u) (dropna s))).
    { apply filter_In. split; [done|apply cell_eqb_refl]. }
    destruct (List.filter (cell_eqb u) (dropna s)); [done|simpl; lia]. }
  rewrite <- (take_drop 20 (value_counts s)) in Hsorted.
  apply StronglySorted_app in Hsorted as [Hshown Hcross].
  destruct (20 <? length (value_counts s)) eqn:E.
  - apply Nat.ltb_lt in E. eexists _, _. split; [reflexivity|].
    split; [rewrite length_take; lia|]. split; [split; [lia|done]|].
    split; [done|]. split; [intros a b Ha Hb; by apply Hcross|].
    split; [|done]. intros v n Hin. apply Hbar.
    apply list_elem_of_In. apply list_elem_of_In in Hin.
    by apply (sublist_subseteq _ _ (sublist_take (value_counts s) 20)).
  - apply Nat.ltb_ge in E. eexists _, _. split; [reflexivity|].
    rewrite take_ge in Hshown, Hcross by done.
    split; [lia|]. split; [split; [done|lia]|].
    split; [done|]. split; [intros a b Ha Hb; by apply Hcross|].
    split; [done|]. intros _.
    rewrite (sum_counts_perm _ _ Hperm), sum_counts_unique.
    by rewrite notna_sum_dropna.
Qed.
End Breakdown.

Lemma category_breakdown_bars_witness :
  exists bars caption,
    @category_breakdown stable_sort df_marks "city" = Ok (bars, caption) /\
    length bars = min 20 2 /\
    (caption = true <-> 20 < 2) /\
    StronglySorted (fun a b : cell * nat => snd b <= snd a) bars /\
    (forall shown hidden, In shown bars ->
       In hidden (drop 20 (@value_counts stable_sort
                             [text "Paris"; None; text "Rome"; text "Paris"])) ->
       snd hidden <= snd shown) /\
    (forall v n, In (v, n) bars ->
       v <> None /\ In v [text "Paris"; None; text "Rome"; text "Paris"] /\
       n = count_of v (dropna [text "Paris"; None; text "Rome"; text "Paris"]) /\
       1 <= n) /\
    (caption = false -> sum_counts bars = 3).
Proof.
  apply (@category_breakdown_bars stable_sort df_marks "city"
           [text "Paris"; None; text "Rome"; text "Paris"]).
  reflexivity.
Defined.
